(** * PDF harvesting pipeline of [main.go]: a shallow embedding

    The program renders a page, pulls every [href] that mentions [.pdf] out
    of the parsed markup, and downloads each one under a sanitized file
    name.  This file embeds the pure helpers ([removeDuplicatesFromSlice],
    [urlToFilename], [extractPDFUrls]) as functions and the effectful
    [downloadPDF] as a state-passing program over an explicit world (file
    store and chronological event trace), and proves the properties the
    design document states about them.

    Go strings are byte sequences; they are embedded as [string] (a list of
    8-bit [ascii]).  The library calls that work on runes
    ([strings.ToLower], [strings.TrimSpace]) decode the bytes as UTF-8 the
    way the packages [unicode/utf8] and [unicode] do. *)

From Stdlib Require Import Ascii String List Bool Arith NArith ZArith.
From Stdlib Require Import Lia Zify ZifyBool.
From stdpp Require Import base option list strings gmap.

Local Open Scope string_scope.
Local Open Scope list_scope.

(** ** Characters *)

Definition is_lower (c : ascii) : bool := (("a" <=? c) && (c <=? "z"))%char.
Definition is_digit (c : ascii) : bool := (("0" <=? c) && (c <=? "9"))%char.

(** The class [[a-z0-9]] of the first regular expression of [urlToFilename]. *)
Definition is_lower_alnum (c : ascii) : bool := is_lower c || is_digit c.

Definition underscore : ascii := "_"%char.
Definition dot : ascii := "."%char.
Definition slash : ascii := "/"%char.

(** [os.IsPathSeparator] on a Unix build. *)
Definition IsPathSeparator (c : ascii) : bool := Ascii.eqb c slash.

(** ** Predicates on whole strings *)

Fixpoint all_chars (p : ascii -> bool) (s : string) : bool :=
  match s with
  | EmptyString => true
  | String c s' => p c && all_chars p s'
  end.

Fixpoint count_char (c : ascii) (s : string) : nat :=
  match s with
  | EmptyString => 0
  | String d s' => (if Ascii.eqb d c then 1 else 0) + count_char c s'
  end.

Definition is_empty (s : string) : bool :=
  match s with EmptyString => true | _ => false end.

Definition starts_with (c : ascii) (s : string) : bool :=
  match s with
  | String d _ => Ascii.eqb d c
  | EmptyString => false
  end.

(** The strings of a list, one after the other. *)
Fixpoint concat_strings (l : list string) : string :=
  match l with
  | [] => EmptyString
  | s :: l' => s +:+ concat_strings l'
  end.

(** ** Package [unicode/utf8] *)

Module GoUtf8.

Definition RuneError : N := 65533.

(** The value of a byte. *)
Definition byte (c : ascii) : N := N_of_ascii c.

Definition in_range (lo hi : N) (c : ascii) : bool :=
  N.leb lo (byte c) && N.leb (byte c) hi.

(** A continuation byte, [10xxxxxx]. *)
Definition is_cont (c : ascii) : bool := in_range 128 191 c.

(** The tables [first] and [acceptRanges]: for a byte that can start a
    sequence of several bytes, the length of the sequence and the range the
    second byte has to be in. *)
Definition lead (c0 : ascii) : option (nat * N * N) :=
  let b := byte c0 in
  if N.leb 194 b && N.leb b 223 then Some (2, 128%N, 191%N)
  else if N.eqb b 224 then Some (3, 160%N, 191%N)
  else if N.leb 225 b && N.leb b 236 then Some (3, 128%N, 191%N)
  else if N.eqb b 237 then Some (3, 128%N, 159%N)
  else if N.leb 238 b && N.leb b 239 then Some (3, 128%N, 191%N)
  else if N.eqb b 240 then Some (4, 144%N, 191%N)
  else if N.leb 241 b && N.leb b 243 then Some (4, 128%N, 191%N)
  else if N.eqb b 244 then Some (4, 128%N, 143%N)
  else None.

(** The payload bits of a continuation byte and of a first byte. *)
Definition low6 (c : ascii) : N := N.modulo (byte c) 64.

Definition rune2 (c0 c1 : ascii) : N :=
  (N.modulo (byte c0) 32 * 64 + low6 c1)%N.

Definition rune3 (c0 c1 c2 : ascii) : N :=
  (N.modulo (byte c0) 16 * 4096 + low6 c1 * 64 + low6 c2)%N.

Definition rune4 (c0 c1 c2 c3 : ascii) : N :=
  (N.modulo (byte c0) 8 * 262144 + low6 c1 * 4096 + low6 c2 * 64
   + low6 c3)%N.

(** [DecodeRuneInString]: the first rune of the string and its width in
    bytes; anything that is not a well-formed sequence is [RuneError] of
    width 1. *)
Definition DecodeRuneInString (s : string) : N * nat :=
  match s with
  | EmptyString => (RuneError, 0)
  | String c0 rest =>
      if N.ltb (byte c0) 128 then (byte c0, 1)
      else
        match lead c0, rest with
        | Some (2, lo, hi), String c1 _ =>
            if in_range lo hi c1 then (rune2 c0 c1, 2) else (RuneError, 1)
        | Some (3, lo, hi), String c1 (String c2 _) =>
            if in_range lo hi c1 && is_cont c2
            then (rune3 c0 c1 c2, 3) else (RuneError, 1)
        | Some (4, lo, hi), String c1 (String c2 (String c3 _)) =>
            if in_range lo hi c1 && is_cont c2 && is_cont c3
            then (rune4 c0 c1 c2 c3, 4) else (RuneError, 1)
        | _, _ => (RuneError, 1)
        end
  end.

Fixpoint take (n : nat) (s : string) : string :=
  match n, s with
  | S n', String c s' => String c (take n' s')
  | _, _ => EmptyString
  end.

Fixpoint drop (n : nat) (s : string) : string :=
  match n, s with
  | S n', String _ s' => drop n' s'
  | _, _ => s
  end.

(** The runes of a string, each with its bytes, in the order a
    [for ... range s] loop meets them; [skip] counts the bytes of the
    current rune still to pass. *)
Fixpoint runes_from (skip : nat) (s : string) : list (N * string) :=
  match s with
  | EmptyString => []
  | String _ s' =>
      match skip with
      | S k => runes_from k s'
      | O =>
          let '(r, width) := DecodeRuneInString s in
          (r, take width s) :: runes_from (width - 1) s'
      end
  end.

Definition runes (s : string) : list (N * string) := runes_from 0 s.

Definition of_byte (n : N) : ascii := ascii_of_N n.

(** [EncodeRune] / [AppendRune]. *)
Definition EncodeRune (r : N) : string :=
  let r := if N.ltb 1114111 r || (N.leb 55296 r && N.leb r 57343)
           then RuneError else r in
  if N.ltb r 128 then String (of_byte r) EmptyString
  else if N.ltb r 2048 then
    String (of_byte (192 + r / 64))
      (String (of_byte (128 + r mod 64)) EmptyString)
  else if N.ltb r 65536 then
    String (of_byte (224 + r / 4096))
      (String (of_byte (128 + (r / 64) mod 64))
         (String (of_byte (128 + r mod 64)) EmptyString))
  else
    String (of_byte (240 + r / 262144))
      (String (of_byte (128 + (r / 4096) mod 64))
         (String (of_byte (128 + (r / 64) mod 64))
            (String (of_byte (128 + r mod 64)) EmptyString))).

End GoUtf8.

(** ** Package [unicode] *)

Module GoUnicode.

(** The table [White_Space], as ranges. *)
Definition White_Space : list (N * N) :=
  [ (9, 13); (32, 32); (133, 133); (160, 160); (5760, 5760); (8192, 8202);
    (8232, 8233); (8239, 8239); (8287, 8287); (12288, 12288) ]%N.

Definition IsSpace (r : N) : bool :=
  existsb (fun '(lo, hi) => N.leb lo r && N.leb r hi) White_Space.

(** The lower-case mappings of the runes above ASCII, as the case table of
    the package gives them (the simple lower-case mappings of the Unicode
    Character Database, version 15.0): the runes [lo], [lo + stride], ...
    up to [hi] map to [target], [target + stride], ... *)
Definition lower_ranges : list (N * N * N * N) :=
  [ (192, 214, 1, 224); (216, 222, 1, 248); (256, 302, 2, 257);
    (304, 304, 1, 105); (306, 310, 2, 307); (313, 327, 2, 314);
    (330, 374, 2, 331); (376, 376, 1, 255); (377, 381, 2, 378);
    (385, 385, 1, 595); (386, 388, 2, 387); (390, 390, 1, 596);
    (391, 391, 1, 392); (393, 394, 1, 598); (395, 395, 1, 396);
    (398, 398, 1, 477); (399, 399, 1, 601); (400, 400, 1, 603);
    (401, 401, 1, 402); (403, 403, 1, 608); (404, 404, 1, 611);
    (406, 406, 1, 617); (407, 407, 1, 616); (408, 408, 1, 409);
    (412, 412, 1, 623); (413, 413, 1, 626); (415, 415, 1, 629);
    (416, 420, 2, 417); (422, 422, 1, 640); (423, 423, 1, 424);
    (425, 425, 1, 643); (428, 428, 1, 429); (430, 430, 1, 648);
    (431, 431, 1, 432); (433, 434, 1, 650); (435, 437, 2, 436);
    (439, 439, 1, 658); (440, 440, 1, 441); (444, 444, 1, 445);
    (452, 452, 1, 454); (453, 453, 1, 454); (455, 455, 1, 457);
    (456, 456, 1, 457); (458, 458, 1, 460); (459, 475, 2, 460);
    (478, 494, 2, 479); (497, 497, 1, 499); (498, 500, 2, 499);
    (502, 502, 1, 405); (503, 503, 1, 447); (504, 542, 2, 505);
    (544, 544, 1, 414); (546, 562, 2, 547); (570, 570, 1, 11365);
    (571, 571, 1, 572); (573, 573, 1, 410); (574, 574, 1, 11366);
    (577, 577, 1, 578); (579, 579, 1, 384); (580, 580, 1, 649);
    (581, 581, 1, 652); (582, 590, 2, 583); (880, 882, 2, 881);
    (886, 886, 1, 887); (895, 895, 1, 1011); (902, 902, 1, 940);
    (904, 906, 1, 941); (908, 908, 1, 972); (910, 911, 1, 973);
    (913, 929, 1, 945); (931, 939, 1, 963); (975, 975, 1, 983);
    (984, 1006, 2, 985); (1012, 1012, 1, 952); (1015, 1015, 1, 1016);
    (1017, 1017, 1, 1010); (1018, 1018, 1, 1019); (1021, 1023, 1, 891);
    (1024, 1039, 1, 1104); (1040, 1071, 1, 1072); (1120, 1152, 2, 1121);
    (1162, 1214, 2, 1163); (1216, 1216, 1, 1231); (1217, 1229, 2, 1218);
    (1232, 1326, 2, 1233); (1329, 1366, 1, 1377); (4256, 4293, 1, 11520);
    (4295, 4295, 1, 11559); (4301, 4301, 1, 11565); (5024, 5103, 1, 43888);
    (5104, 5109, 1, 5112); (7312, 7354, 1, 4304); (7357, 7359, 1, 4349);
    (7680, 7828, 2, 7681); (7838, 7838, 1, 223); (7840, 7934, 2, 7841);
    (7944, 7951, 1, 7936); (7960, 7965, 1, 7952); (7976, 7983, 1, 7968);
    (7992, 7999, 1, 7984); (8008, 8013, 1, 8000); (8025, 8031, 2, 8017);
    (8040, 8047, 1, 8032); (8072, 8079, 1, 8064); (8088, 8095, 1, 8080);
    (8104, 8111, 1, 8096); (8120, 8121, 1, 8112); (8122, 8123, 1, 8048);
    (8124, 8124, 1, 8115); (8136, 8139, 1, 8050); (8140, 8140, 1, 8131);
    (8152, 8153, 1, 8144); (8154, 8155, 1, 8054); (8168, 8169, 1, 8160);
    (8170, 8171, 1, 8058); (8172, 8172, 1, 8165); (8184, 8185, 1, 8056);
    (8186, 8187, 1, 8060); (8188, 8188, 1, 8179); (8486, 8486, 1, 969);
    (8490, 8490, 1, 107); (8491, 8491, 1, 229); (8498, 8498, 1, 8526);
    (8544, 8559, 1, 8560); (8579, 8579, 1, 8580); (9398, 9423, 1, 9424);
    (11264, 11311, 1, 11312); (11360, 11360, 1, 11361);
    (11362, 11362, 1, 619); (11363, 11363, 1, 7549); (11364, 11364, 1, 637);
    (11367, 11371, 2, 11368); (11373, 11373, 1, 593); (11374, 11374, 1, 625);
    (11375, 11375, 1, 592); (11376, 11376, 1, 594); (11378, 11378, 1, 11379);
    (11381, 11381, 1, 11382); (11390, 11391, 1, 575);
    (11392, 11490, 2, 11393); (11499, 11501, 2, 11500);
    (11506, 11506, 1, 11507); (42560, 42604, 2, 42561);
    (42624, 42650, 2, 42625); (42786, 42798, 2, 42787);
    (42802, 42862, 2, 42803); (42873, 42875, 2, 42874);
    (42877, 42877, 1, 7545); (42878, 42886, 2, 42879);
    (42891, 42891, 1, 42892); (42893, 42893, 1, 613);
    (42896, 42898, 2, 42897); (42902, 42920, 2, 42903);
    (42922, 42922, 1, 614); (42923, 42923, 1, 604); (42924, 42924, 1, 609);
    (42925, 42925, 1, 620); (42926, 42926, 1, 618); (42928, 42928, 1, 670);
    (42929, 42929, 1, 647); (42930, 42930, 1, 669); (42931, 42931, 1, 43859);
    (42932, 42946, 2, 42933); (42948, 42948, 1, 42900);
    (42949, 42949, 1, 642); (42950, 42950, 1, 7566);
    (42951, 42953, 2, 42952); (42960, 42960, 1, 42961);
    (42966, 42968, 2, 42967); (42997, 42997, 1, 42998);
    (65313, 65338, 1, 65345); (66560, 66599, 1, 66600);
    (66736, 66771, 1, 66776); (66928, 66938, 1, 66967);
    (66940, 66954, 1, 66979); (66956, 66962, 1, 66995);
    (66964, 66965, 1, 67003); (68736, 68786, 1, 68800);
    (71840, 71871, 1, 71872); (93760, 93791, 1, 93792);
    (125184, 125217, 1, 125218) ]%N.

Definition in_lower_range (r : N) (e : N * N * N * N) : bool :=
  let '(lo, hi, stride, _) := e in
  N.leb lo r && N.leb r hi && N.eqb ((r - lo) mod stride) 0.

(** [unicode.ToLower]. *)
Definition ToLower (r : N) : N :=
  if N.leb r 127 then
    (if N.leb 65 r && N.leb r 90 then r + 32 else r)%N
  else
    match find (in_lower_range r) lower_ranges with
    | Some (lo, _, _, target) => (target + (r - lo))%N
    | None => r
    end.

End GoUnicode.

(** ** Package [strings] *)

Module GoStrings.

(** [strings.ToLower], that is [strings.Map(unicode.ToLower, s)]: every
    rune of [s] is mapped and written back in UTF-8; a byte that is not
    part of a well-formed sequence reads as [RuneError] and is written as
    such. *)
Definition ToLower (s : string) : string :=
  concat_strings
    (map (fun u => GoUtf8.EncodeRune (GoUnicode.ToLower (fst u)))
         (GoUtf8.runes s)).

(** [HasPrefix s p]: [p] is a prefix of [s]. *)
Fixpoint HasPrefix (s p : string) {struct p} : bool :=
  match p, s with
  | EmptyString, _ => true
  | String _ _, EmptyString => false
  | String a p', String b s' => Ascii.eqb a b && HasPrefix s' p'
  end.

Fixpoint Contains (s substr : string) : bool :=
  HasPrefix s substr ||
  match s with
  | EmptyString => false
  | String _ s' => Contains s' substr
  end.

(** [TrimLeftFunc s f] and [TrimRightFunc s f]. *)
Fixpoint TrimLeftFunc (f : ascii -> bool) (s : string) : string :=
  match s with
  | EmptyString => EmptyString
  | String c s' => if f c then TrimLeftFunc f s' else s
  end.

Fixpoint TrimRightFunc (f : ascii -> bool) (s : string) : string :=
  match s with
  | EmptyString => EmptyString
  | String c s' =>
      let r := TrimRightFunc f s' in
      if f c && is_empty r then EmptyString else String c r
  end.

Definition TrimFunc (f : ascii -> bool) (s : string) : string :=
  TrimRightFunc f (TrimLeftFunc f s).

Definition is_space_rune (u : N * string) : bool :=
  GoUnicode.IsSpace (fst u).

(** Drop the white space runes at the front, and those at the back. *)
Fixpoint trim_left (us : list (N * string)) : list (N * string) :=
  match us with
  | [] => []
  | u :: us' => if is_space_rune u then trim_left us' else us
  end.

Fixpoint trim_right (us : list (N * string)) : list (N * string) :=
  match us with
  | [] => []
  | u :: us' =>
      match trim_right us' with
      | [] => if is_space_rune u then [] else [u]
      | kept => u :: kept
      end
  end.

(** [strings.TrimSpace], that is [TrimFunc(s, unicode.IsSpace)]: the string
    without the white space runes at its two ends.  The library finds the
    runes at the back by decoding backwards; a rune found that way starts
    at a byte that is not a continuation byte, which is where the forward
    decoding used here starts a rune too. *)
Definition TrimSpace (s : string) : string :=
  concat_strings (map snd (trim_right (trim_left (GoUtf8.runes s)))).

(** [Trim s cutset] for a cutset of one byte, the way [urlToFilename]
    calls it. *)
Definition Trim1 (s : string) (cut : ascii) : string :=
  TrimFunc (Ascii.eqb cut) s.

(** [strings.Split(s, sep)[0]] for a one-byte separator: the text before
    the first separator, the whole string when there is none. *)
Fixpoint SplitHead (s : string) (sep : ascii) : string :=
  match s with
  | EmptyString => EmptyString
  | String c s' => if Ascii.eqb c sep then EmptyString
                   else String c (SplitHead s' sep)
  end.

(** [ReplaceAll s old ""] for a non-empty [old]: matches are found left to
    right and do not overlap; [skip] counts the bytes of the current match
    still to drop. *)
Fixpoint remove_from (old : string) (skip : nat) (s : string) : string :=
  match s with
  | EmptyString => EmptyString
  | String c s' =>
      match skip with
      | S k => remove_from old k s'
      | O => if HasPrefix s old
             then remove_from old (String.length old - 1) s'
             else String c (remove_from old 0 s')
      end
  end.

Definition ReplaceAllEmpty (s old : string) : string :=
  if is_empty old then s else remove_from old 0 s.

End GoStrings.

(** ** Package [path/filepath] (Unix) *)

Module GoFilepath.

(** Strip trailing separators (first loop of [Base]). *)
Definition strip_trailing_sep (path : string) : string :=
  GoStrings.TrimRightFunc IsPathSeparator path.

(** The text after the last separator, [None] when there is none. *)
Fixpoint after_last_sep (path : string) : option string :=
  match path with
  | EmptyString => None
  | String c p' =>
      match after_last_sep p' with
      | Some r => Some r
      | None => if IsPathSeparator c then Some p' else None
      end
  end.

Definition Base (path : string) : string :=
  if is_empty path then "."
  else
    let path := strip_trailing_sep path in
    let path := match after_last_sep path with
                | Some r => r
                | None => path
                end in
    if is_empty path then "/" else path.

(** What the backwards scan of [Ext] has met so far. *)
Inductive ext_scan : Type :=
| ExtFound (ext : string)   (* a dot, with no separator behind it *)
| ExtBlocked                (* a separator came first *)
| ExtOpen.                  (* neither yet *)

Fixpoint scan_ext (path : string) : ext_scan :=
  match path with
  | EmptyString => ExtOpen
  | String c p' =>
      match scan_ext p' with
      | ExtFound e => ExtFound e
      | ExtBlocked => ExtBlocked
      | ExtOpen =>
          if IsPathSeparator c then ExtBlocked
          else if Ascii.eqb c dot then ExtFound path
          else ExtOpen
      end
  end.

(** [Ext]: the suffix that starts at the last dot of the last path
    element; empty when that element has no dot. *)
Definition Ext (path : string) : string :=
  match scan_ext path with
  | ExtFound e => e
  | _ => EmptyString
  end.

(** [Clean], element by element: the path is cut at its separators, empty
    and [.] elements are dropped, and [..] removes the element before it
    when there is one to remove.  [stack] holds the elements kept so far,
    last one first; [..] elements can only sit at its bottom, and only in
    a path that is not rooted. *)
Fixpoint split_sep (path : string) : list string :=
  match path with
  | EmptyString => [EmptyString]
  | String c p' =>
      if IsPathSeparator c then EmptyString :: split_sep p'
      else match split_sep p' with
           | h :: t => String c h :: t
           | [] => [String c EmptyString]
           end
  end.

Definition clean_step (rooted : bool) (stack : list string) (elem : string)
  : list string :=
  if String.eqb elem "" || String.eqb elem "." then stack
  else if String.eqb elem ".." then
    match stack with
    | [] => if rooted then [] else [".."]
    | top :: rest => if String.eqb top ".." then elem :: stack else rest
    end
  else elem :: stack.

Fixpoint join_sep (elems : list string) : string :=
  match elems with
  | [] => EmptyString
  | [e] => e
  | e :: rest => e +:+ "/" +:+ join_sep rest
  end.

Definition Clean (path : string) : string :=
  if is_empty path then "."
  else
    let rooted := starts_with slash path in
    let stack := fold_left (clean_step rooted) (split_sep path) [] in
    let out := (if rooted then "/" else "") +:+ join_sep (rev stack) in
    if is_empty out then "." else out.

(** [Join] of two elements. *)
Definition Join (dir name : string) : string :=
  if negb (is_empty dir) then Clean (dir +:+ "/" +:+ name)
  else if negb (is_empty name) then Clean name
  else EmptyString.

End GoFilepath.

(** ** Package [regexp]: the two substitutions of [urlToFilename] *)

Module GoRegexp.

(** [regexp.MustCompile(`[^a-z0-9]`).ReplaceAllString(s, "_")].  Go
    replaces rune by rune, so a character encoded on several bytes gives one
    underscore where this gives one per byte; the next statement of
    [urlToFilename] collapses runs of underscores, after which the two
    agree. *)
Fixpoint replace_non_alnum (s : string) : string :=
  match s with
  | EmptyString => EmptyString
  | String c s' =>
      String (if is_lower_alnum c then c else underscore)
             (replace_non_alnum s')
  end.

(** [regexp.MustCompile(`_+`).ReplaceAllString(s, "_")]. *)
Fixpoint collapse_underscores (s : string) : string :=
  match s with
  | EmptyString => EmptyString
  | String c s' =>
      if Ascii.eqb c underscore && starts_with underscore s'
      then collapse_underscores s'
      else String c (collapse_underscores s')
  end.

End GoRegexp.

(** ** The filename sanitizer *)

Definition getFileExtension (path : string) : string := GoFilepath.Ext path.

Definition getFilename (path : string) : string := GoFilepath.Base path.

Definition removeSubstring (input toRemove : string) : string :=
  GoStrings.ReplaceAllEmpty input toRemove.

Definition invalidSubstrings : list string := ["_pdf"; "_zip"; "_txt"].

(** The characters the two substitutions leave in a name: [[a-z0-9_]]. *)
Definition is_name_char (c : ascii) : bool :=
  is_lower_alnum c || Ascii.eqb c underscore.

(** The alphabet of a sanitized name read character by character: every
    character is in [[a-z0-9_]] or is a dot, and there is at most one dot. *)
Definition name_chars_and_one_dot (s : string) : bool :=
  all_chars (fun c => is_name_char c || Ascii.eqb c dot) s
  && Nat.leb (count_char dot s) 1.

Definition urlToFilename (rawURL : string) : string :=
  let lower := GoStrings.ToLower rawURL in
  let lower := GoStrings.SplitHead lower "?" in
  let lower := getFilename lower in
  let ext := getFileExtension lower in
  let safe := GoRegexp.replace_non_alnum lower in
  let safe := GoRegexp.collapse_underscores safe in
  let safe := GoStrings.Trim1 safe underscore in
  let safe := fold_left removeSubstring invalidSubstrings safe in
  if is_empty (getFileExtension safe) then safe +:+ ext else safe.

(** ** Seed de-duplication *)

(** [check[content]] on a Go [map[string]bool]: a missing key reads as
    [false]. *)
Definition map_get_bool (check : gmap string bool) (key : string) : bool :=
  default false (check !! key).

(** One iteration of the [for ... range slice] loop: the state is the pair
    of the [check] map and [newReturnSlice]. *)
Definition dedup_step (st : gmap string bool * list string) (content : string)
  : gmap string bool * list string :=
  let '(check, newReturnSlice) := st in
  if negb (map_get_bool check content)
  then (<[content := true]> check, newReturnSlice ++ [content])
  else st.

Definition removeDuplicatesFromSlice (slice : list string) : list string :=
  snd (fold_left dedup_step slice (∅, [])).

(** What the design document asks of the step, in its own words: keep the
    first occurrence of each distinct element, in first-occurrence order. *)
Fixpoint first_occurrences (l : list string) : list string :=
  match l with
  | [] => []
  | x :: l' => x :: filter (λ y, y ≠ x) (first_occurrences l')
  end.

(** ** The link extractor *)

(** The parse tree of [golang.org/x/net/html]: a node has a type, a [Data]
    string (the tag name of an element), attributes, and its children in
    document order (the [FirstChild]/[NextSibling] chain). *)
Inductive NodeType : Type :=
| ErrorNode | TextNode | DocumentNode | ElementNode
| CommentNode | DoctypeNode | RawNode.

Record Attribute : Type := mkAttr {
  Namespace : string;
  Key : string;
  Val : string
}.

#[local] Unset Elimination Schemes.
Inductive Node : Type :=
| mkNode (Type_ : NodeType) (Data : string) (Attr : list Attribute)
         (children : list Node).
#[local] Set Elimination Schemes.

Definition is_element (t : NodeType) : bool :=
  match t with ElementNode => true | _ => false end.

(** The marker test of the inner [if], on the trimmed link. *)
Definition mentions_pdf (link : string) : bool :=
  GoStrings.Contains (GoStrings.ToLower link) ".pdf".

(** One iteration of the loop over [currentNode.Attr]; [pdfLinks] is the
    slice the closure appends to. *)
Definition scan_attribute (pdfLinks : list string) (attribute : Attribute)
  : list string :=
  if String.eqb (Key attribute) "href" then
    let link := GoStrings.TrimSpace (Val attribute) in
    if mentions_pdf link then pdfLinks ++ [link] else pdfLinks
  else pdfLinks.

Definition is_anchor (t : NodeType) (data : string) : bool :=
  is_element t && String.eqb data "a".

Fixpoint exploreHTML (currentNode : Node) (pdfLinks : list string)
  : list string :=
  match currentNode with
  | mkNode t data attr children =>
      let pdfLinks :=
        if is_anchor t data then fold_left scan_attribute attr pdfLinks
        else pdfLinks in
      fold_left (fun acc childNode => exploreHTML childNode acc)
                children pdfLinks
  end.

(** [html.Parse] belongs to the parser library; it is taken as a parameter
    that yields a tree or an error. *)
Definition extractPDFUrls (Parse : string -> Node + string)
  (htmlContent : string) : list string :=
  match Parse htmlContent with
  | inr parseError => []
  | inl parsedHTML => exploreHTML parsedHTML []
  end.

(** ** The document fetcher *)

(** *** The world [downloadPDF] runs in *)

(** What [os.Stat] can find at a path. *)
Inductive FsNode : Type :=
| FsFile (content : string)
| FsDir.

Definition IsDir (info : FsNode) : bool :=
  match info with FsDir => true | FsFile _ => false end.

(** An HTTP response as [downloadPDF] looks at it: status, the value of
    [Header.Get("Content-Type")], and the body as a stream that delivers
    [Body] and then ends with end-of-file ([None]) or a read error. *)
Record Response : Type := mkResponse {
  StatusCode : Z;
  Status : string;
  ContentType : string;
  Body : string;
  BodyErr : option string
}.

Definition StatusOK : Z := 200.

(** One constructor per [log.Printf] call of [downloadPDF]. *)
Inductive LogMsg : Type :=
| LogFileExists (fullFilePath : string)
| LogRequestFailed (pdfURL requestError : string)
| LogBadStatus (pdfURL status : string)
| LogInvalidContentType (pdfURL contentType : string)
| LogReadFailed (pdfURL copyError : string)
| LogZeroBytes (pdfURL : string)
| LogCreateFailed (pdfURL fileCreateError : string)
| LogWriteFailed (pdfURL writeError : string)
| LogSuccess (bytesWritten : nat) (pdfURL fullFilePath : string).

(** Everything the function does to the outside, in the order it happens. *)
Inductive Event : Type :=
| EvLog (m : LogMsg)
| EvHttpGet (url : string)
| EvBodyRead (bytes : nat) (ok : bool)
| EvBodyClose
| EvCreate (path : string) (ok : bool)
| EvWrite (path : string) (bytes : nat) (ok : bool)
| EvFileClose (path : string).

Record World : Type := mkWorld {
  fs : gmap string FsNode;
  trace : list Event
}.

(** What the network and the operating system decide: the answer to a GET
    (a response or a transport error), whether the system refuses to create
    a path (permissions, missing parent directory), and whether a write of
    [n] bytes to a path stops early, after how many bytes and with which
    error. *)
Record Env : Type := mkEnv {
  http_get : string -> Response + string;
  create_refused : string -> option string;
  write_fault : string -> nat -> option (nat * string)
}.

Definition is_None_bool {A} (o : option A) : bool :=
  match o with None => true | Some _ => false end.

(** *** State passing *)

Definition M (A : Type) : Type := World -> A * World.

Definition ret {A} (a : A) : M A := fun w => (a, w).

Definition bind {A B} (c : M A) (k : A -> M B) : M B :=
  fun w => let '(a, w') := c w in k a w'.

Notation "x <- c1 ;; c2" := (bind c1 (fun x => c2))
  (at level 20, c1 at level 99, c2 at level 200, only parsing).
Notation "c1 ;; c2" := (bind c1 (fun _ => c2))
  (at level 100, c2 at level 200, only parsing, right associativity).

Definition emit (e : Event) : M unit :=
  fun w => (tt, {| fs := fs w; trace := trace w ++ [e] |}).

Definition log_Printf (m : LogMsg) : M unit := emit (EvLog m).

(** [defer cleanup] in front of [body]: the cleanup runs when the body
    returns, whatever it returns. *)
Definition with_defer {A} (cleanup : M unit) (body : M A) : M A :=
  r <- body ;; cleanup ;; ret r.

(** [os.Stat]: the node at the path, [None] for the error. *)
Definition os_Stat (path : string) : M (option FsNode) :=
  fun w => (fs w !! path, w).

(** [os.Create]: refuses a directory and whatever the system refuses;
    otherwise the path becomes an empty regular file (an existing one is
    truncated). *)
Definition os_Create (env : Env) (path : string) : M (option string) :=
  fun w =>
    let refusal :=
      match fs w !! path with
      | Some FsDir => Some "is a directory"
      | _ => create_refused env path
      end in
    match refusal with
    | Some err =>
        (Some err, {| fs := fs w; trace := trace w ++ [EvCreate path false] |})
    | None =>
        (None, {| fs := <[path := FsFile ""]> (fs w);
                  trace := trace w ++ [EvCreate path true] |})
    end.

(** [responseBuffer.WriteTo(outputFile)]. *)
Definition buffer_WriteTo (env : Env) (path data : string)
  : M (option string) :=
  fun w =>
    match write_fault env path (String.length data) with
    | Some (k, err) =>
        (Some err,
         {| fs := <[path := FsFile (String.substring 0 k data)]> (fs w);
            trace := trace w
                     ++ [EvWrite path (min k (String.length data)) false] |})
    | None =>
        (None,
         {| fs := <[path := FsFile data]> (fs w);
            trace := trace w ++ [EvWrite path (String.length data) true] |})
    end.

(** [httpClient.Get]. *)
Definition http_Get (env : Env) (url : string) : M (Response + string) :=
  emit (EvHttpGet url) ;; ret (http_get env url).

(** [io.Copy(&responseBuffer, httpResponse.Body)]: the buffer, the byte
    count and the error. *)
Definition io_Copy (resp : Response) : M (string * nat * option string) :=
  emit (EvBodyRead (String.length (Body resp))
                   (is_None_bool (BodyErr resp))) ;;
  ret (Body resp, String.length (Body resp), BodyErr resp).

(** *** The program *)

Definition fileExists (filename : string) : M bool :=
  info <- os_Stat filename ;;
  match info with
  | None => ret false
  | Some info => ret (negb (IsDir info))
  end.

Definition downloadPDF (env : Env) (pdfURL outputDirectory : string) : M bool :=
  let safeFilename := GoStrings.ToLower (urlToFilename pdfURL) in
  let fullFilePath := GoFilepath.Join outputDirectory safeFilename in
  exists_ <- fileExists fullFilePath ;;
  if exists_ then
    log_Printf (LogFileExists fullFilePath) ;; ret false
  else
    got <- http_Get env pdfURL ;;
    match got with
    | inr requestError =>
        log_Printf (LogRequestFailed pdfURL requestError) ;; ret false
    | inl httpResponse =>
        with_defer (emit EvBodyClose) (
          if negb (Z.eqb (StatusCode httpResponse) StatusOK) then
            log_Printf (LogBadStatus pdfURL (Status httpResponse)) ;; ret false
          else
            let contentType := ContentType httpResponse in
            if negb (GoStrings.Contains contentType "binary/octet-stream")
               && negb (GoStrings.Contains contentType "application/pdf") then
              log_Printf (LogInvalidContentType pdfURL contentType) ;; ret false
            else
              copied <- io_Copy httpResponse ;;
              let '(responseBuffer, bytesWritten, copyError) := copied in
              match copyError with
              | Some copyError =>
                  log_Printf (LogReadFailed pdfURL copyError) ;; ret false
              | None =>
                  if Nat.eqb bytesWritten 0 then
                    log_Printf (LogZeroBytes pdfURL) ;; ret false
                  else
                    created <- os_Create env fullFilePath ;;
                    match created with
                    | Some fileCreateError =>
                        log_Printf (LogCreateFailed pdfURL fileCreateError) ;;
                        ret false
                    | None =>
                        with_defer (emit (EvFileClose fullFilePath)) (
                          written <- buffer_WriteTo env fullFilePath responseBuffer ;;
                          match written with
                          | Some writeError =>
                              log_Printf (LogWriteFailed pdfURL writeError) ;;
                              ret false
                          | None =>
                              log_Printf (LogSuccess bytesWritten pdfURL fullFilePath) ;;
                              ret true
                          end)
                    end
              end)
    end.

(** ** Vocabulary of the statements *)

(** The name before the extension is put back: step 7 of the algorithm. *)
Definition sanitized_stem (lower : string) : string :=
  fold_left removeSubstring invalidSubstrings
    (GoStrings.Trim1
       (GoRegexp.collapse_underscores
          (GoRegexp.replace_non_alnum
             (getFilename (GoStrings.SplitHead lower "?"))))
       underscore).

(** The extension captured in step 4. *)
Definition captured_ext (lower : string) : string :=
  getFileExtension (getFilename (GoStrings.SplitHead lower "?")).

(** The three URLs the design document names. *)
Definition representative_urls : list string :=
  [ "https://example.com/manuals/Radio-Guide.PDF?v=2";
    "https://example.com/a/b/file.name.with.dots.pdf";
    "https://example.com/noext" ].

Definition free_of_invalid_substrings (name : string) : bool :=
  forallb (fun bad => negb (GoStrings.Contains name bad)) invalidSubstrings.

(** The [check] map records exactly the strings already appended. *)
Definition tracks (check : gmap string bool) (out : list string) : Prop :=
  forall x, map_get_bool check x = true <-> x ∈ out.

(** The nodes of a tree in document order: a node, then its children's
    subtrees from first to last. *)
Fixpoint preorder (n : Node) : list Node :=
  match n with
  | mkNode _ _ _ children => n :: flat_map preorder children
  end.

Definition node_attr (n : Node) : list Attribute :=
  match n with mkNode _ _ attr _ => attr end.

Definition node_is_anchor (n : Node) : bool :=
  match n with mkNode t data _ _ => is_anchor t data end.

Definition is_href (a : Attribute) : bool := String.eqb (Key a) "href".

(** The href values an anchor carries, as they stand in the markup. *)
Definition anchor_hrefs (n : Node) : list string :=
  if node_is_anchor n then map Val (List.filter is_href (node_attr n))
  else [].

(** Every href value of every anchor, in document order. *)
Definition document_hrefs (t : Node) : list string :=
  flat_map anchor_hrefs (preorder t).

(** An anchor that carries an href whose value mentions the marker. *)
Definition anchor_matches (n : Node) : bool :=
  node_is_anchor n
  && existsb (fun a => is_href a && mentions_pdf (Val a)) (node_attr n).

(** The [N] of the design document. *)
Definition count_matching_anchors (t : Node) : nat :=
  length (List.filter anchor_matches (preorder t)).

(** No anchor of the tree repeats the href attribute; other elements may
    carry what they like. *)
Definition single_href (n : Node) : bool :=
  negb (node_is_anchor n)
  || Nat.leb (length (List.filter is_href (node_attr n))) 1.

Definition hrefs_not_repeated (t : Node) : bool :=
  forallb single_href (preorder t).

(** The links kept from a list of href values: those that mention the
    marker, trimmed. *)
Definition trimmed_pdf_links (hrefs : list string) : list string :=
  map GoStrings.TrimSpace (List.filter mentions_pdf hrefs).

(** A page with one anchor whose href is padded with spaces, as the parser
    delivers [<a href='  Doc.PDF '>manual</a>]. *)
Definition padded_href_page : Node :=
  mkNode DocumentNode "" []
    [ mkNode ElementNode "html" []
        [ mkNode ElementNode "head" [] [];
          mkNode ElementNode "body" []
            [ mkNode ElementNode "a" [mkAttr "" "href" "  Doc.PDF "]
                [ mkNode TextNode "manual" [] [] ] ] ] ].

(** A page with anchors at several depths: three mention the marker (in
    mixed case, one with a query string), two do not; a [link] element with
    an href is not an anchor. *)
Definition sample_page : Node :=
  mkNode DocumentNode "" []
    [ mkNode ElementNode "html" []
        [ mkNode ElementNode "head" []
            [ mkNode ElementNode "link" [mkAttr "" "href" "style.pdf.css"] [] ];
          mkNode ElementNode "body" []
            [ mkNode ElementNode "a" [mkAttr "" "href" "/files/One.PDF"] [];
              mkNode ElementNode "div" [mkAttr "" "class" "docs"]
                [ mkNode ElementNode "a" [mkAttr "" "href" "/about.html"] [];
                  mkNode ElementNode "ul" []
                    [ mkNode ElementNode "li" []
                        [ mkNode ElementNode "a"
                            [ mkAttr "" "class" "dl";
                              mkAttr "" "href" "two.Pdf?v=3" ]
                            [ mkNode TextNode "Two" [] [] ] ] ] ];
              mkNode ElementNode "a" [mkAttr "" "name" "top"] [];
              mkNode ElementNode "a" [mkAttr "" "href" " /three.pdf"] [] ] ] ].

(** The content types the gate of [downloadPDF] lets through. *)
Definition acceptable_content_type (contentType : string) : bool :=
  GoStrings.Contains contentType "binary/octet-stream"
  || GoStrings.Contains contentType "application/pdf".

(** The destination path [downloadPDF] computes. *)
Definition destination (pdfURL outputDirectory : string) : string :=
  GoFilepath.Join outputDirectory (GoStrings.ToLower (urlToFilename pdfURL)).

(** The world after some more events, the file store untouched. *)
Definition after (w : World) (evs : list Event) : World :=
  {| fs := fs w; trace := trace w ++ evs |}.

(** The world after some more events that left [content] at [path]. *)
Definition stored (w : World) (path content : string) (evs : list Event)
  : World :=
  {| fs := <[path := FsFile content]> (fs w); trace := trace w ++ evs |}.

(** [downloadPDF] run symbolically: one line per way out of the function. *)
Definition fetch_outcome (env : Env) (pdfURL outputDirectory : string)
  (w : World) : bool * World :=
  let dest := destination pdfURL outputDirectory in
  match fs w !! dest with
  | Some (FsFile _) => (false, after w [EvLog (LogFileExists dest)])
  | found =>
    match http_get env pdfURL with
    | inr e =>
        (false, after w [EvHttpGet pdfURL; EvLog (LogRequestFailed pdfURL e)])
    | inl r =>
      let n := String.length (Body r) in
      if negb (Z.eqb (StatusCode r) StatusOK) then
        (false, after w [EvHttpGet pdfURL;
                         EvLog (LogBadStatus pdfURL (Status r));
                         EvBodyClose])
      else if negb (acceptable_content_type (ContentType r)) then
        (false, after w [EvHttpGet pdfURL;
                         EvLog (LogInvalidContentType pdfURL (ContentType r));
                         EvBodyClose])
      else
        match BodyErr r with
        | Some e =>
            (false, after w [EvHttpGet pdfURL; EvBodyRead n false;
                             EvLog (LogReadFailed pdfURL e); EvBodyClose])
        | None =>
          if Nat.eqb n 0 then
            (false, after w [EvHttpGet pdfURL; EvBodyRead n true;
                             EvLog (LogZeroBytes pdfURL); EvBodyClose])
          else
            match match found with
                  | Some FsDir => Some "is a directory"
                  | _ => create_refused env dest
                  end with
            | Some e =>
                (false, after w [EvHttpGet pdfURL; EvBodyRead n true;
                                 EvCreate dest false;
                                 EvLog (LogCreateFailed pdfURL e);
                                 EvBodyClose])
            | None =>
              match write_fault env dest n with
              | Some (k, e) =>
                  (false,
                   stored w dest (String.substring 0 k (Body r))
                     [EvHttpGet pdfURL; EvBodyRead n true;
                      EvCreate dest true; EvWrite dest (min k n) false;
                      EvLog (LogWriteFailed pdfURL e);
                      EvFileClose dest; EvBodyClose])
              | None =>
                  (true,
                   stored w dest (Body r)
                     [EvHttpGet pdfURL; EvBodyRead n true;
                      EvCreate dest true; EvWrite dest n true;
                      EvLog (LogSuccess n pdfURL dest);
                      EvFileClose dest; EvBodyClose])
              end
            end
        end
    end
  end.

(** A trace in which every file creation comes after a complete read of at
    least one byte; [seen] tells whether such a read has happened. *)
Fixpoint reads_before_creates (seen : bool) (evs : list Event) : bool :=
  match evs with
  | [] => true
  | EvBodyRead n ok :: rest =>
      reads_before_creates (seen || (ok && Nat.ltb 0 n)) rest
  | EvCreate _ _ :: rest => seen && reads_before_creates seen rest
  | _ :: rest => reads_before_creates seen rest
  end.

(** A server that answers every GET with the given content type and body,
    on a system that refuses nothing. *)
Definition serving (contentType body : string) : Env :=
  {| http_get := fun _ => inl (mkResponse 200 "200 OK" contentType body None);
     create_refused := fun _ => None;
     write_fault := fun _ _ => None |}.

(** A server whose body breaks off with a read error. *)
Definition serving_broken (contentType body : string) : Env :=
  {| http_get := fun _ =>
       inl (mkResponse 200 "200 OK" contentType body (Some "unexpected EOF"));
     create_refused := fun _ => None;
     write_fault := fun _ _ => None |}.

(** An output directory that is empty, and one that already holds the
    manual. *)
Definition empty_store : World :=
  {| fs := {[ "PDFs" := FsDir ]}; trace := [] |}.

Definition store_with_manual : World :=
  {| fs := {[ "PDFs" := FsDir; "PDFs/manual.pdf" := FsFile "old" ]};
     trace := [] |}.

(** ** The rest of the program *)

(** [directoryExists]: [os.Stat] found something and it is a directory. *)
Definition directoryExists (path : string) : M bool :=
  directory <- os_Stat path ;;
  match directory with
  | None => ret false
  | Some directory => ret (IsDir directory)
  end.

(** The inner loop of [main]:
    [for _, pdfUrl := range pdfUrls { downloadPDF(pdfUrl, outputDirectory) }];
    the result of each call is dropped. *)
Fixpoint download_links (env : Env) (pdfUrls : list string)
  (outputDirectory : string) : M unit :=
  match pdfUrls with
  | [] => ret tt
  | pdfUrl :: rest =>
      downloadPDF env pdfUrl outputDirectory ;;
      download_links env rest outputDirectory
  end.

(** A string that [strings.ToLower] leaves as it is, rune by rune: every
    rune is written the way its lower-case form is encoded. *)
Definition lowered (s : string) : Prop :=
  Forall (fun u => GoUtf8.EncodeRune (GoUnicode.ToLower (fst u)) = snd u)
         (GoUtf8.runes s).

(** The white space runes, one by one. *)
Definition space_runes : list N :=
  [ 9; 10; 11; 12; 13; 32; 133; 160; 5760; 8192; 8193; 8194; 8195; 8196;
    8197; 8198; 8199; 8200; 8201; 8202; 8232; 8233; 8239; 8287; 12288 ]%N.

(** A byte that does not occur in a pattern. *)
Definition foreign_to (pat : string) (c : ascii) : bool :=
  negb (existsb (Ascii.eqb c) (list_ascii_of_string pat)).

(** The runes a table entry maps: [lo], [lo + stride], ... up to [hi]. *)
Fixpoint range_points (count : nat) (r stride : N) : list N :=
  match count with
  | O => []
  | S k => r :: range_points k (r + stride) stride
  end.

Definition entry_points (e : N * N * N * N) : list N :=
  let '(lo, hi, stride, _) := e in
  range_points (S (N.to_nat ((hi - lo) / stride))) lo stride.

(** Every rune the case table maps. *)
Definition mapped_runes : list N :=
  flat_map entry_points GoUnicode.lower_ranges.

(** The rune [EncodeRune] writes for [r]: [r] itself, unless it is above
    the last code point or a surrogate half. *)
Definition written_rune (r : N) : N :=
  if N.ltb 1114111 r || (N.leb 55296 r && N.leb r 57343)
  then GoUtf8.RuneError else r.

(** How many events of a trace satisfy a test. *)
Definition count_events (p : Event -> bool) (evs : list Event) : nat :=
  length (List.filter p evs).

Definition is_log (e : Event) : bool :=
  match e with EvLog _ => true | _ => false end.

Definition is_get (e : Event) : bool :=
  match e with EvHttpGet _ => true | _ => false end.

Definition is_body_close (e : Event) : bool :=
  match e with EvBodyClose => true | _ => false end.

Definition is_file_close (e : Event) : bool :=
  match e with EvFileClose _ => true | _ => false end.

Definition is_file_open (e : Event) : bool :=
  match e with EvCreate _ true => true | _ => false end.

(** The events a run adds to the trace it started from. *)
Definition new_events (w : World) (run : bool * World) : list Event :=
  drop (length (trace w)) (trace (snd run)).

(** A server as [serving], on a system where every write stops after [k]
    bytes. *)
Definition serving_short_write (contentType body : string) (k : nat) : Env :=
  {| http_get := fun _ => inl (mkResponse 200 "200 OK" contentType body None);
     create_refused := fun _ => None;
     write_fault := fun _ _ => Some (k, "no space left on device") |}.

(** A server that answers every GET with the given status. *)
Definition serving_status (code : Z) (status : string) : Env :=
  {| http_get := fun _ =>
       inl (mkResponse code status "application/pdf" "%PDF-1.7 body" None);
     create_refused := fun _ => None;
     write_fault := fun _ _ => None |}.

(** A network that fails every GET. *)
Definition unreachable : Env :=
  {| http_get := fun _ => inr "dial tcp: connection refused";
     create_refused := fun _ => None;
     write_fault := fun _ _ => None |}.


(** * Properties *)

(** ** The library embedding on the examples of the Go documentation *)

Example Base_examples :
  map GoFilepath.Base
    ["/foo/bar/baz.js"; "/foo/bar/baz/"; "dev.txt"; "../todo.txt"; "..";
     "."; "/"; ""; "//"]
  = ["baz.js"; "baz"; "dev.txt"; "todo.txt"; ".."; "."; "/"; "."; "/"].
Proof. vm_compute. reflexivity. Qed.

Example Ext_examples :
  map GoFilepath.Ext ["index"; "index.js"; "main.test.js"; "a.b/c"; "."]
  = [""; ".js"; ".js"; ""; "."].
Proof. vm_compute. reflexivity. Qed.

Example Clean_examples :
  map GoFilepath.Clean
    ["a/c"; "a//c"; "a/c/."; "a/c/b/.."; "/../a/c"; "/../a/b/../././/c";
     ""; "../../a/../../b"; "a/.."; "/"]
  = ["a/c"; "a/c"; "a/c"; "a/c"; "/a/c"; "/a/c"; "."; "../../../b"; ".";
     "/"].
Proof. vm_compute. reflexivity. Qed.

Example Join_examples :
  [GoFilepath.Join "a" "b"; GoFilepath.Join "a" ""; GoFilepath.Join "" "b";
   GoFilepath.Join "a/" "b"; GoFilepath.Join "a" "../../xyz";
   GoFilepath.Join "" ""; GoFilepath.Join "PDFs/" "manual.pdf"]
  = ["a/b"; "a"; "b"; "a/b"; "../xyz"; ""; "PDFs/manual.pdf"].
Proof. vm_compute. reflexivity. Qed.

Example strings_examples :
  [GoStrings.ToLower "Hello, Gophers-42";
   GoStrings.TrimSpace (String "009" (String "010" " Hello, Gophers  "));
   GoStrings.Trim1 "__a_b__" underscore;
   GoStrings.SplitHead "a/b.pdf?v=2?w" "?";
   GoStrings.SplitHead "" "?";
   GoStrings.ReplaceAllEmpty "oink oink oink" "oink";
   GoStrings.ReplaceAllEmpty "aaa" "aa";
   GoRegexp.collapse_underscores (GoRegexp.replace_non_alnum "a--b.C d")]
  = ["hello, gophers-42"; "Hello, Gophers"; "a_b"; "a/b.pdf"; ""; "  "; "a";
     "a_b_d"].
Proof. vm_compute. reflexivity. Qed.

(** Beyond ASCII: a no-break space ([C2 A0]) and an ideographic space
    ([E3 80 80]) are trimmed; [U+00C9] ([C3 89]) and the Kelvin sign
    ([E2 84 AA]) are lower-cased to [U+00E9] and [k]; a stray byte [FF] is
    written back as [U+FFFD] ([EF BF BD]); a lone [C2] is not white
    space. *)
Example unicode_examples :
  [ GoStrings.TrimSpace
      (String "194" (String "160"
         (" Doc.pdf" +:+ String "227" (String "128" (String "128" "")))));
    GoStrings.ToLower
      ("File." +:+ String "195" (String "137"
         (String "226" (String "132" (String "170"
            (String "255" "Z"))))));
    GoStrings.TrimSpace (String "194" " x ") ]
  = [ "Doc.pdf";
      "file." +:+ String "195" (String "169"
         (String "107" (String "239" (String "191" (String "189" "z")))));
      String "194" " x" ].
Proof. vm_compute. reflexivity. Qed.

(** An href padded with no-break spaces is kept without them. *)
Example extractPDFUrls_no_break_space :
  extractPDFUrls
    (fun _ =>
       inl (mkNode ElementNode "a"
              [mkAttr "" "href"
                 (String "194" (String "160"
                    ("Doc.PDF" +:+ String "194" (String "160" ""))))] []))
    "<a>"
  = ["Doc.PDF"].
Proof. vm_compute. reflexivity. Qed.

Example Contains_examples :
  map (fun s => GoStrings.Contains s ".pdf")
    ["manual.pdf"; "a.pdf?x"; ".pd"; ""; "x.PDF"; "pdf."]
  = [true; true; false; false; false; false].
Proof. vm_compute. reflexivity. Qed.

(** ** Characters and strings *)

Lemma name_char_not_dot c : is_name_char c = true -> Ascii.eqb c dot = false.
Proof.
  destruct c as [[] [] [] [] [] [] [] []]; vm_compute; congruence.
Qed.

Lemma name_char_not_sep c : is_name_char c = true -> IsPathSeparator c = false.
Proof.
  destruct c as [[] [] [] [] [] [] [] []]; vm_compute; congruence.
Qed.

Lemma append_nil t : "" +:+ t = t.
Proof. reflexivity. Qed.

Lemma append_cons c s t : String c s +:+ t = String c (s +:+ t).
Proof. reflexivity. Qed.

Lemma all_chars_app p s t :
  all_chars p (s +:+ t) = all_chars p s && all_chars p t.
Proof.
  induction s as [|c s IH]; [reflexivity|].
  rewrite append_cons. cbn. rewrite <- andb_assoc. f_equal. exact IH.
Qed.

Lemma all_chars_impl (p q : ascii -> bool) s :
  (forall c, p c = true -> q c = true) ->
  all_chars p s = true -> all_chars q s = true.
Proof.
  intros Hpq. induction s as [|c s IH]; cbn; [reflexivity|].
  intros [Hc Hs]%andb_true_iff. rewrite (Hpq _ Hc). cbn. auto.
Qed.

Lemma count_char_app c s t :
  count_char c (s +:+ t) = count_char c s + count_char c t.
Proof.
  induction s as [|d s IH]; [reflexivity|].
  rewrite append_cons. cbn. rewrite IH. lia.
Qed.

Lemma count_char_absent c s :
  all_chars (fun d => negb (Ascii.eqb d c)) s = true -> count_char c s = 0.
Proof.
  induction s as [|d s IH]; cbn; [reflexivity|].
  intros [Hd Hs]%andb_true_iff.
  apply negb_true_iff in Hd. rewrite Hd, (IH Hs). reflexivity.
Qed.

Lemma append_nil_r s : s +:+ "" = s.
Proof. induction s as [|c s IH]; [reflexivity|]. now rewrite append_cons, IH. Qed.

Lemma append_assoc s t u : (s +:+ t) +:+ u = s +:+ (t +:+ u).
Proof.
  induction s as [|c s IH]; [reflexivity|]. now rewrite !append_cons, IH.
Qed.

Lemma append_length s t :
  String.length (s +:+ t) = String.length s + String.length t.
Proof.
  induction s as [|c s IH]; [reflexivity|]. rewrite append_cons. cbn.
  now rewrite IH.
Qed.

Module GoUtf8Facts.
Import GoUtf8.

Ltac split_matches :=
  repeat match goal with
         | |- context [match ?x with _ => _ end] => destruct x eqn:?
         end.

Lemma take_drop n s : take n s +:+ drop n s = s.
Proof.
  revert s. induction n as [|n IH]; intros [|c s]; try reflexivity.
  cbn [take drop]. now rewrite append_cons, IH.
Qed.

Lemma drop_length n s : String.length (drop n s) = String.length s - n.
Proof.
  revert s. induction n as [|n IH]; intros [|c s]; try reflexivity.
  cbn [drop String.length]. now rewrite IH.
Qed.

Lemma take_app n s t :
  n <= String.length s -> take n (s +:+ t) = take n s.
Proof.
  revert s. induction n as [|n IH]; intros s H.
  - reflexivity.
  - destruct s as [|c s]; [cbn in H; lia|].
    rewrite append_cons. cbn [take]. rewrite IH; [reflexivity|cbn in H; lia].
Qed.

Lemma drop_app n s t :
  n <= String.length s -> drop n (s +:+ t) = drop n s +:+ t.
Proof.
  revert s. induction n as [|n IH]; intros s H.
  - reflexivity.
  - destruct s as [|c s]; [cbn in H; lia|].
    rewrite append_cons. cbn [drop]. apply IH. cbn in H. lia.
Qed.

Lemma take_all s t : take (String.length s) (s +:+ t) = s.
Proof.
  induction s as [|c s IH]; [destruct t; reflexivity|].
  rewrite append_cons. cbn. now rewrite IH.
Qed.

Lemma drop_all s t : drop (String.length s) (s +:+ t) = t.
Proof.
  induction s as [|c s IH]; [reflexivity|]. rewrite append_cons. exact IH.
Qed.

(** The width of a rune is at least one and at most what is there. *)
Lemma decode_width c s r w :
  DecodeRuneInString (String c s) = (r, w) ->
  1 <= w <= S (String.length s).
Proof.
  unfold DecodeRuneInString. split_matches; intros [= <- <-]; cbn; lia.
Qed.

Lemma runes_from_drop k s : runes_from k s = runes (drop k s).
Proof.
  revert k. induction s as [|c s IH]; intros [|k]; try reflexivity.
  cbn [runes_from drop]. apply IH.
Qed.

(** One turn of the loop. *)
Lemma runes_cons c s :
  runes (String c s)
  = (fst (DecodeRuneInString (String c s)),
     take (snd (DecodeRuneInString (String c s))) (String c s))
    :: runes (drop (snd (DecodeRuneInString (String c s))) (String c s)).
Proof.
  unfold runes at 1. cbn [runes_from].
  destruct (DecodeRuneInString (String c s)) as [r w] eqn:E.
  cbn [fst snd]. rewrite runes_from_drop.
  destruct (decode_width c s r w E) as [Hw _].
  destruct w as [|w]; [lia|]. replace (S w - 1) with w by lia. reflexivity.
Qed.

(** Induction along the loop. *)
Lemma runes_ind (P : string -> Prop) :
  P "" ->
  (forall c s, P (drop (snd (DecodeRuneInString (String c s))) (String c s)) ->
               P (String c s)) ->
  forall s, P s.
Proof.
  intros H0 Hstep s.
  remember (String.length s) as n eqn:Hn. revert s Hn.
  induction n as [n IH] using lt_wf_ind. intros [|c s] Hn; [exact H0|].
  apply Hstep.
  destruct (DecodeRuneInString (String c s)) as [r w] eqn:E. cbn [snd].
  destruct (decode_width c s r w E) as [Hw _].
  eapply IH; [|reflexivity]. rewrite drop_length. cbn in Hn |- *. lia.
Qed.

(** The runes' bytes, put together, are the string. *)
Lemma runes_bytes s : concat_strings (map snd (runes s)) = s.
Proof.
  induction s as [|c s IH] using runes_ind; [reflexivity|].
  rewrite runes_cons. cbn [map snd concat_strings]. rewrite IH.
  apply take_drop.
Qed.

(** What decoding finds does not depend on what follows the rune. *)
Lemma decode_take m c s :
  snd (DecodeRuneInString (String c s)) <= m ->
  DecodeRuneInString (take m (String c s)) = DecodeRuneInString (String c s).
Proof.
  destruct m as [|[|[|[|m]]]]; destruct s as [|c1 [|c2 [|c3 s]]];
    unfold DecodeRuneInString; cbn [take];
    split_matches; cbn [snd]; intros H; try reflexivity; lia.
Qed.

Lemma take_length n s :
  n <= String.length s -> String.length (take n s) = n.
Proof.
  revert s. induction n as [|n IH]; intros s H; [reflexivity|].
  destruct s as [|c s]; [cbn in H; lia|]. cbn. rewrite IH; [reflexivity|].
  cbn in H. lia.
Qed.

(** A run of runes from the front of a string decodes to itself. *)
Lemma runes_prefix us1 : forall s us2,
  runes s = us1 ++ us2 -> runes (concat_strings (map snd us1)) = us1.
Proof.
  induction us1 as [|u us1 IH]; intros s us2 H; [reflexivity|].
  destruct s as [|c s]; [discriminate H|].
  rewrite runes_cons in H. cbn [app] in H.
  destruct (DecodeRuneInString (String c s)) as [r w] eqn:E.
  cbn [fst snd] in H. injection H as <- Hrest.
  pose proof (IH _ _ Hrest) as IH'.
  destruct (decode_width c s r w E) as [Hw1 Hw2].
  cbn [map snd concat_strings].
  set (x := take w (String c s)).
  set (y := concat_strings (map snd us1)) in *.
  assert (String.length x = w) as Hx.
  { apply take_length. cbn. lia. }
  assert (exists z, String c s = x +:+ (y +:+ z)) as [z Hs].
  { exists (concat_strings (map snd us2)).
    rewrite <- (take_drop w (String c s)). fold x. f_equal.
    rewrite <- (runes_bytes (drop w (String c s))), Hrest, map_app.
    clear. induction (map snd us1) as [|a l IH]; [reflexivity|].
    cbn. now rewrite IH, append_assoc. }
  assert (DecodeRuneInString (x +:+ y) = (r, w)) as Hd.
  { assert (x +:+ y = take (String.length (x +:+ y)) (String c s)) as ->.
    { rewrite Hs at 1. rewrite <- append_assoc. now rewrite take_all. }
    rewrite decode_take; [exact E|].
    rewrite E. cbn [snd]. rewrite append_length. lia. }
  destruct (x +:+ y) as [|c' s'] eqn:Exy.
  { destruct x; [cbn in Hx; lia|discriminate Exy]. }
  rewrite runes_cons, Hd. cbn [fst snd]. rewrite <- Exy.
  rewrite take_app by lia. rewrite drop_app by lia.
  rewrite <- Hx.
  pose proof (take_all x "") as Ht. rewrite append_nil_r in Ht. rewrite Ht.
  pose proof (drop_all x "") as Hdr. rewrite append_nil_r in Hdr.
  rewrite Hdr, append_nil. now rewrite IH'.
Qed.

(** So does a run of runes from the back. *)
Lemma runes_suffix us1 : forall s us2,
  runes s = us1 ++ us2 -> runes (concat_strings (map snd us2)) = us2.
Proof.
  induction us1 as [|u us1 IH]; intros s us2 H.
  - cbn [app] in H. rewrite <- H. now rewrite runes_bytes.
  - destruct s as [|c s]; [discriminate H|].
    rewrite runes_cons in H. injection H as _ Hrest.
    exact (IH _ _ Hrest).
Qed.

(** Accepted second bytes are continuation bytes. *)
Lemma lead_accepts c0 sz lo hi c :
  lead c0 = Some (sz, lo, hi) -> in_range lo hi c = true -> is_cont c = true.
Proof.
  unfold lead. split_matches; intros [= <- <- <-]; try discriminate;
    unfold is_cont, in_range; intros [H1 H2]%andb_true_iff;
    apply N.leb_le in H1, H2; apply andb_true_iff;
    split; apply N.leb_le; lia.
Qed.

(** A byte that is not a continuation byte ends the rune before it. *)
Lemma decode_before_start c0 s c q :
  is_cont c = false ->
  DecodeRuneInString (String c0 s +:+ String c q)
  = DecodeRuneInString (String c0 s).
Proof.
  intros Hc.
  assert (forall sz lo hi, lead c0 = Some (sz, lo, hi) ->
                           in_range lo hi c = false) as Hlead.
  { intros sz lo hi Hl. destruct (in_range lo hi c) eqn:E; [|reflexivity].
    rewrite (lead_accepts _ _ _ _ _ Hl E) in Hc. discriminate. }
  destruct s as [|c1 [|c2 [|c3 s]]]; rewrite ?append_cons, ?append_nil;
    unfold DecodeRuneInString;
    destruct (N.ltb (byte c0) 128); try reflexivity;
    destruct (lead c0) as [[[sz lo] hi]|] eqn:El; try reflexivity;
    specialize (Hlead _ _ _ eq_refl);
    destruct sz as [|[|[|[|[|sz]]]]]; try reflexivity;
    rewrite ?Hlead, ?Hc, ?andb_false_r; try reflexivity;
    split_matches; try reflexivity;
    rewrite ?andb_false_r in *; cbn [andb] in *; discriminate.
Qed.

Lemma runes_before_start s : forall c q,
  is_cont c = false ->
  runes (s +:+ String c q) = runes s ++ runes (String c q).
Proof.
  induction s as [|c0 s IH] using runes_ind; intros c q Hc; [reflexivity|].
  rewrite append_cons, runes_cons, <- append_cons.
  rewrite (decode_before_start c0 s c q Hc).
  rewrite (runes_cons c0 s).
  destruct (DecodeRuneInString (String c0 s)) as [r w] eqn:E.
  cbn [fst snd] in *.
  destruct (decode_width c0 s r w E) as [Hw1 Hw2].
  rewrite take_app by (cbn; lia). rewrite drop_app by (cbn; lia).
  cbn [app]. f_equal. now apply IH.
Qed.

End GoUtf8Facts.

Module GoStringsFacts.
Import GoStrings.

Lemma TrimLeftFunc_all p f s :
  all_chars p s = true -> all_chars p (TrimLeftFunc f s) = true.
Proof.
  induction s as [|c s IH]; cbn; [reflexivity|].
  intros H. destruct (f c); [|exact H].
  apply andb_true_iff in H as [_ H]. auto.
Qed.

Lemma TrimRightFunc_all p f s :
  all_chars p s = true -> all_chars p (TrimRightFunc f s) = true.
Proof.
  induction s as [|c s IH]; cbn; [reflexivity|].
  intros [Hc Hs]%andb_true_iff.
  destruct (f c && is_empty (TrimRightFunc f s)); cbn; [reflexivity|].
  rewrite Hc. cbn. auto.
Qed.

Lemma TrimFunc_all p f s :
  all_chars p s = true -> all_chars p (TrimFunc f s) = true.
Proof.
  intros H. unfold TrimFunc.
  apply TrimRightFunc_all, TrimLeftFunc_all, H.
Qed.

Lemma remove_from_all p old k s :
  all_chars p s = true -> all_chars p (remove_from old k s) = true.
Proof.
  revert k. induction s as [|c s IH]; intros k; [reflexivity|].
  cbn [remove_from all_chars]. intros [Hc Hs]%andb_true_iff.
  destruct k as [|k]; [|auto].
  destruct (HasPrefix (String c s) old); [auto|].
  cbn [all_chars]. rewrite Hc. cbn. auto.
Qed.

Lemma ReplaceAllEmpty_all p s old :
  all_chars p s = true -> all_chars p (ReplaceAllEmpty s old) = true.
Proof.
  intros H. unfold ReplaceAllEmpty.
  destruct (is_empty old); [exact H|]. apply remove_from_all, H.
Qed.

End GoStringsFacts.

Module GoRegexpFacts.
Import GoRegexp.

Lemma replace_non_alnum_name s :
  all_chars is_name_char (replace_non_alnum s) = true.
Proof.
  induction s as [|c s IH]; cbn; [reflexivity|].
  rewrite IH, andb_true_r.
  unfold is_name_char. destruct (is_lower_alnum c) eqn:E; [now rewrite E|].
  reflexivity.
Qed.

Lemma collapse_underscores_all p s :
  all_chars p s = true -> all_chars p (collapse_underscores s) = true.
Proof.
  induction s as [|c s IH]; cbn; [reflexivity|].
  intros [Hc Hs]%andb_true_iff.
  destruct (Ascii.eqb c underscore && starts_with underscore s); [auto|].
  cbn. rewrite Hc. cbn. auto.
Qed.

End GoRegexpFacts.

Module GoFilepathFacts.
Import GoFilepath.

(** While the scan is open it has met neither a dot nor a separator. *)
Lemma scan_ext_open s :
  scan_ext s = ExtOpen ->
  all_chars (fun c => negb (Ascii.eqb c dot)) s = true.
Proof.
  induction s as [|c s IH]; cbn; [reflexivity|].
  destruct (scan_ext s); try discriminate.
  destruct (IsPathSeparator c); [discriminate|].
  destruct (Ascii.eqb c dot); [discriminate|].
  intros _. cbn. auto.
Qed.

(** A found extension is a dot followed by dot-free text. *)
Lemma scan_ext_found s e :
  scan_ext s = ExtFound e ->
  exists e', e = String dot e' /\ count_char dot e' = 0.
Proof.
  induction s as [|c s IH]; cbn; [discriminate|].
  destruct (scan_ext s) eqn:E; try discriminate.
  - intros [= <-]. auto.
  - destruct (IsPathSeparator c); [discriminate|].
    destruct (Ascii.eqb c dot) eqn:Hc; [|discriminate].
    intros [= <-]. apply Ascii.eqb_eq in Hc as ->.
    exists s. split; [reflexivity|].
    apply count_char_absent, scan_ext_open, E.
Qed.

Lemma Ext_shape path :
  Ext path = "" \/
  exists e', Ext path = String dot e' /\ count_char dot e' = 0.
Proof.
  unfold Ext. destruct (scan_ext path) eqn:E; auto.
  right. apply scan_ext_found in E as (e' & -> & H). eauto.
Qed.

(** A name over [[a-z0-9_]] has no extension. *)
Lemma scan_ext_name s :
  all_chars is_name_char s = true -> scan_ext s = ExtOpen.
Proof.
  induction s as [|c s IH]; cbn; [reflexivity|].
  intros [Hc Hs]%andb_true_iff. rewrite (IH Hs).
  now rewrite (name_char_not_sep _ Hc), (name_char_not_dot _ Hc).
Qed.

Lemma Ext_name s : all_chars is_name_char s = true -> Ext s = "".
Proof. intros H. unfold Ext. now rewrite (scan_ext_name _ H). Qed.

End GoFilepathFacts.

(** ** The sanitizer *)

Lemma sanitized_stem_name lower :
  all_chars is_name_char (sanitized_stem lower) = true.
Proof.
  unfold sanitized_stem, invalidSubstrings, removeSubstring. cbn [fold_left].
  do 3 apply GoStringsFacts.ReplaceAllEmpty_all.
  apply GoStringsFacts.TrimFunc_all, GoRegexpFacts.collapse_underscores_all,
    GoRegexpFacts.replace_non_alnum_name.
Qed.

(** The extension is always appended: the stem never has one of its own. *)
Lemma urlToFilename_split rawURL :
  urlToFilename rawURL
  = sanitized_stem (GoStrings.ToLower rawURL)
    +:+ captured_ext (GoStrings.ToLower rawURL).
Proof.
  unfold urlToFilename. cbn zeta.
  set (lower := GoStrings.ToLower rawURL).
  fold (sanitized_stem lower) (captured_ext lower).
  unfold getFileExtension at 1.
  now rewrite (GoFilepathFacts.Ext_name _ (sanitized_stem_name lower)).
Qed.

(** X24.  For every input, the output of [urlToFilename] is a stem over
    [[a-z0-9_]] followed by the extension captured from the lower-cased
    basename, copied as it stands: that extension is empty or a dot followed
    by text without a dot, so the output has at most one dot. *)
Theorem urlToFilename_stem_and_extension (rawURL : string) :
  let ext :=
    getFileExtension
      (getFilename (GoStrings.SplitHead (GoStrings.ToLower rawURL) "?")) in
  (exists stem,
      urlToFilename rawURL = stem +:+ ext
      /\ all_chars is_name_char stem = true)
  /\ (ext = "" \/ exists e, ext = String dot e /\ count_char dot e = 0)
  /\ count_char dot (urlToFilename rawURL) <= 1.
Proof.
  cbn zeta. set (lower := GoStrings.ToLower rawURL).
  fold (captured_ext lower).
  pose proof (sanitized_stem_name lower) as Hstem.
  pose proof (GoFilepathFacts.Ext_shape
                (getFilename (GoStrings.SplitHead lower "?"))) as Hext.
  fold (getFileExtension (getFilename (GoStrings.SplitHead lower "?"))) in Hext.
  fold (captured_ext lower) in Hext.
  split; [|split].
  - exists (sanitized_stem lower).
    split; [apply urlToFilename_split|exact Hstem].
  - exact Hext.
  - rewrite urlToFilename_split, count_char_app. fold lower.
    assert (count_char dot (sanitized_stem lower) = 0) as ->.
    { apply count_char_absent.
      eapply all_chars_impl; [|exact Hstem].
      intros c Hc. now rewrite (name_char_not_dot _ Hc). }
    destruct Hext as [-> | (e & -> & He)]; cbn; [lia|].
    rewrite He. lia.
Qed.

(** C3.  The output is not always over [[a-z0-9_]] plus one dot: for
    [https://example.com/manual.pdf#page=2] the sanitizer returns
    [manual_page_2.pdf#page=2].  The extension is captured before the
    substitutions and appended as it stands, so the [#] and [=] of the
    fragment reach a name that is meant to be safe for the file system. *)
Lemma urlToFilename_fragment_outside_alphabet :
  urlToFilename "https://example.com/manual.pdf#page=2"
  = "manual_page_2.pdf#page=2"
  /\ name_chars_and_one_dot
       (urlToFilename "https://example.com/manual.pdf#page=2") = false.
Proof. split; vm_compute; reflexivity. Qed.

(** C8.  On the three representative URLs [urlToFilename] is a function of
    its argument with these fixed results; each result is over [[a-z0-9_]]
    with at most one dot-delimited extension, and none contains [_pdf],
    [_zip] or [_txt]. *)
Theorem urlToFilename_representative :
  map urlToFilename representative_urls
  = [ "radio_guide.pdf"; "file_name_with_dots.pdf"; "noext" ]
  /\ forallb (fun u => name_chars_and_one_dot (urlToFilename u))
       representative_urls = true
  /\ forallb (fun u => free_of_invalid_substrings (urlToFilename u))
       representative_urls = true.
Proof. repeat split; vm_compute; reflexivity. Qed.

(** ** De-duplication *)

Section dedup.

Implicit Types (l out : list string) (check : gmap string bool).

Lemma tracks_empty : tracks ∅ [].
Proof.
  intros x. unfold map_get_bool. rewrite lookup_empty. cbn.
  split; [discriminate|]. intros H. inversion H.
Qed.

Lemma tracks_insert check out x :
  tracks check out -> tracks (<[x := true]> check) (out ++ [x]).
Proof.
  intros H y. unfold map_get_bool. rewrite elem_of_app, list_elem_of_singleton.
  destruct (decide (x = y)) as [->|Hne].
  - rewrite lookup_insert_eq. cbn. tauto.
  - rewrite lookup_insert_ne by exact Hne.
    fold (map_get_bool check y). rewrite (H y).
    split; [tauto|]. intros [?|?]; [assumption|congruence].
Qed.

Lemma filter_all (P : string -> Prop) `{!forall x, Decision (P x)} l :
  (forall x, x ∈ l -> P x) -> filter P l = l.
Proof.
  induction l as [|y l IH]; intros HP; [reflexivity|].
  rewrite filter_cons_True by (apply HP; left).
  f_equal. apply IH. intros x Hx. apply HP. now right.
Qed.

Lemma filter_seen out x (L : list string) :
  x ∈ out ->
  filter (λ y, y ∉ out) (filter (λ y, y ≠ x) L) = filter (λ y, y ∉ out) L.
Proof.
  intros Hx. apply list_filter_filter_l. intros y Hy ->. exact (Hy Hx).
Qed.

Lemma filter_fresh out x (L : list string) :
  filter (λ y, y ∉ out ++ [x]) L
  = filter (λ y, y ∉ out) (filter (λ y, y ≠ x) L).
Proof.
  rewrite list_filter_filter. apply list_filter_iff. intros y.
  rewrite elem_of_app, list_elem_of_singleton. tauto.
Qed.

(** The loop, started in any state that [tracks], appends the first
    occurrences that are not yet in the output. *)
Lemma dedup_loop l : forall check out,
  tracks check out ->
  snd (fold_left dedup_step l (check, out))
  = out ++ filter (λ y, y ∉ out) (first_occurrences l).
Proof.
  induction l as [|x l IH]; intros check out Htr.
  - cbn. now rewrite app_nil_r.
  - cbn [fold_left first_occurrences]. unfold dedup_step at 2.
    destruct (map_get_bool check x) eqn:Hx; cbn [negb].
    + apply Htr in Hx. rewrite (IH _ _ Htr).
      rewrite filter_cons_False by tauto.
      now rewrite filter_seen.
    + assert (x ∉ out) as Hnot.
      { intros Hin. apply Htr in Hin. congruence. }
      rewrite (IH _ _ (tracks_insert _ _ x Htr)).
      rewrite filter_cons_True by exact Hnot.
      rewrite <- app_assoc. cbn. now rewrite filter_fresh.
Qed.

Lemma removeDuplicates_first_occurrences l :
  removeDuplicatesFromSlice l = first_occurrences l.
Proof.
  unfold removeDuplicatesFromSlice.
  rewrite (dedup_loop l ∅ [] tracks_empty). cbn.
  apply filter_all. intros y _ H. inversion H.
Qed.

Lemma first_occurrences_elem l x : x ∈ first_occurrences l <-> x ∈ l.
Proof.
  induction l as [|y l IH]; [reflexivity|].
  cbn. rewrite !elem_of_cons, list_elem_of_filter, IH.
  destruct (decide (x = y)); tauto.
Qed.

Lemma first_occurrences_NoDup l : NoDup (first_occurrences l).
Proof.
  induction l as [|y l IH]; cbn; [constructor|].
  constructor.
  - rewrite list_elem_of_filter. tauto.
  - now apply NoDup_filter.
Qed.

Lemma first_occurrences_fixed l : NoDup l -> first_occurrences l = l.
Proof.
  induction 1 as [|y l Hy Hnd IH]; cbn; [reflexivity|].
  rewrite IH. f_equal. apply filter_all.
  intros z Hz ->. exact (Hy Hz).
Qed.

End dedup.

Section dedup_prefix.

Implicit Types (l out : list string) (check : gmap string bool).

Lemma dedup_step_tracks check out x :
  tracks check out ->
  tracks (fst (dedup_step (check, out) x)) (snd (dedup_step (check, out) x)).
Proof.
  intros H. unfold dedup_step.
  destruct (map_get_bool check x); cbn; [exact H|].
  now apply tracks_insert.
Qed.

Lemma dedup_loop_tracks l : forall check out,
  tracks check out ->
  tracks (fst (fold_left dedup_step l (check, out)))
         (snd (fold_left dedup_step l (check, out))).
Proof.
  induction l as [|x l IH]; intros check out H; [exact H|].
  cbn [fold_left].
  pose proof (dedup_step_tracks check out x H) as H'.
  destruct (dedup_step (check, out) x) as [check' out'].
  now apply IH.
Qed.

(** Reading one more element appends it exactly when it is new. *)
Lemma removeDuplicates_snoc pre x :
  removeDuplicatesFromSlice (pre ++ [x])
  = removeDuplicatesFromSlice pre
    ++ (if decide (x ∈ pre) then [] else [x]).
Proof.
  unfold removeDuplicatesFromSlice. rewrite fold_left_app. cbn [fold_left].
  pose proof (dedup_loop_tracks pre ∅ [] tracks_empty) as Htr.
  pose proof (removeDuplicates_first_occurrences pre) as Hout.
  unfold removeDuplicatesFromSlice in Hout.
  destruct (fold_left dedup_step pre (∅, [])) as [check out].
  cbn [fst snd] in *. subst out. unfold dedup_step.
  destruct (map_get_bool check x) eqn:Hx; cbn [negb snd].
  - apply (proj1 (Htr x)) in Hx.
    apply (proj1 (first_occurrences_elem pre x)) in Hx.
    rewrite decide_True by exact Hx. now rewrite app_nil_r.
  - rewrite decide_False; [reflexivity|].
    intros Hin. apply (proj2 (first_occurrences_elem pre x)) in Hin.
    apply (proj2 (Htr x)) in Hin. congruence.
Qed.

End dedup_prefix.

(** C7.  The result of [removeDuplicatesFromSlice] has no repeated element;
    it keeps the first occurrence of each distinct input element, in the
    order of first occurrence (reading one more input element appends it
    exactly when it did not occur before); it has the elements of the
    input; and applying the function twice equals applying it once. *)
Theorem removeDuplicatesFromSlice_first_occurrences (slice : list string) :
  NoDup (removeDuplicatesFromSlice slice)
  /\ removeDuplicatesFromSlice slice = first_occurrences slice
  /\ (forall pre x,
        removeDuplicatesFromSlice (pre ++ [x])
        = removeDuplicatesFromSlice pre
          ++ (if decide (x ∈ pre) then [] else [x]))
  /\ (forall x, x ∈ removeDuplicatesFromSlice slice <-> x ∈ slice)
  /\ removeDuplicatesFromSlice (removeDuplicatesFromSlice slice)
     = removeDuplicatesFromSlice slice.
Proof.
  rewrite !removeDuplicates_first_occurrences.
  split; [apply first_occurrences_NoDup|].
  split; [reflexivity|].
  split; [apply removeDuplicates_snoc|].
  split; [intros x; apply first_occurrences_elem|].
  apply first_occurrences_fixed, first_occurrences_NoDup.
Qed.

(** ** Trimming and the marker test *)

Module TrimFacts.
Import GoStrings.

Lemma concat_strings_app l1 l2 :
  concat_strings (l1 ++ l2) = concat_strings l1 +:+ concat_strings l2.
Proof.
  induction l1 as [|x l1 IH]; [reflexivity|].
  cbn. now rewrite IH, append_assoc.
Qed.

(** *** Bytes that a pattern does not have *)

Lemma HasPrefix_foreign_head c s pat :
  pat <> "" -> foreign_to pat c = true -> HasPrefix (String c s) pat = false.
Proof.
  destruct pat as [|a p]; [congruence|]. intros _ Hc. cbn.
  destruct (Ascii.eqb a c) eqn:E; [|reflexivity].
  apply Ascii.eqb_eq in E as ->. unfold foreign_to in Hc. cbn in Hc.
  now rewrite Ascii.eqb_refl in Hc.
Qed.

Lemma Contains_foreign_left pat front s :
  pat <> "" -> all_chars (foreign_to pat) front = true ->
  Contains (front +:+ s) pat = Contains s pat.
Proof.
  intros Hp. induction front as [|c front IH]; [reflexivity|].
  cbn [all_chars]. intros [Hc Hf]%andb_true_iff.
  rewrite append_cons. cbn [Contains].
  now rewrite (HasPrefix_foreign_head c _ pat Hp Hc), (IH Hf).
Qed.

Lemma HasPrefix_foreign_back pat back : forall p s,
  all_chars (fun c => negb (foreign_to pat c)) p = true ->
  all_chars (foreign_to pat) back = true ->
  HasPrefix (s +:+ back) p = HasPrefix s p.
Proof.
  induction p as [|a p IH]; intros s Hp Hb; [reflexivity|].
  cbn [all_chars] in Hp. apply andb_true_iff in Hp as [Ha Hp].
  destruct s as [|x s].
  - rewrite append_nil. destruct back as [|b back]; [reflexivity|].
    cbn [all_chars] in Hb. apply andb_true_iff in Hb as [Hb _].
    cbn. destruct (Ascii.eqb a b) eqn:E; [|reflexivity].
    apply Ascii.eqb_eq in E as ->. rewrite Hb in Ha. discriminate.
  - rewrite append_cons. cbn [HasPrefix]. now rewrite IH.
Qed.

Lemma Contains_foreign_back pat back s :
  pat <> "" ->
  all_chars (fun c => negb (foreign_to pat c)) pat = true ->
  all_chars (foreign_to pat) back = true ->
  Contains (s +:+ back) pat = Contains s pat.
Proof.
  intros Hp Hself Hb. induction s as [|x s IH].
  - rewrite append_nil.
    rewrite <- (append_nil_r back).
    now rewrite (Contains_foreign_left pat back "" Hp Hb).
  - rewrite append_cons. cbn [Contains]. rewrite IH.
    rewrite <- append_cons.
    now rewrite (HasPrefix_foreign_back pat back pat (String x s) Hself Hb).
Qed.

(** *** White space at the two ends *)

Lemma trim_left_split us :
  exists ws,
    us = ws ++ trim_left us /\ Forall (fun u => is_space_rune u = true) ws.
Proof.
  induction us as [|u us (ws & Hus & Hws)].
  - exists []. split; [reflexivity|constructor].
  - cbn [trim_left]. destruct (is_space_rune u) eqn:E.
    + exists (u :: ws). split; [cbn; now rewrite <- Hus|now constructor].
    + exists []. split; [reflexivity|constructor].
Qed.

Lemma trim_right_split us :
  exists ws,
    us = trim_right us ++ ws /\ Forall (fun u => is_space_rune u = true) ws.
Proof.
  induction us as [|u us (ws & Hus & Hws)].
  - exists []. split; [reflexivity|constructor].
  - cbn [trim_right]. destruct (trim_right us) as [|k kept] eqn:E.
    + cbn [app] in Hus. subst ws. destruct (is_space_rune u) eqn:Eu.
      * exists (u :: us). split; [reflexivity|now constructor].
      * exists us. split; [reflexivity|exact Hws].
    + exists ws. split; [cbn; now rewrite Hus|exact Hws].
Qed.

(** The runes of a trimmed string are the runes that were kept. *)
Lemma runes_TrimSpace s :
  GoUtf8.runes (TrimSpace s) = trim_right (trim_left (GoUtf8.runes s)).
Proof.
  unfold TrimSpace.
  destruct (trim_left_split (GoUtf8.runes s)) as (ws1 & H1 & _).
  destruct (trim_right_split (trim_left (GoUtf8.runes s))) as (ws2 & H2 & _).
  set (kept := trim_right (trim_left (GoUtf8.runes s))) in *.
  rewrite H2 in H1.
  pose proof (GoUtf8Facts.runes_suffix _ _ _ H1) as Hs.
  exact (GoUtf8Facts.runes_prefix _ _ _ Hs).
Qed.

Lemma trim_right_idem us : trim_right (trim_right us) = trim_right us.
Proof.
  induction us as [|u us IH]; [reflexivity|].
  cbn [trim_right]. destruct (trim_right us) as [|k kept] eqn:E.
  - destruct (is_space_rune u) eqn:Eu; [reflexivity|].
    cbn [trim_right]. now rewrite Eu.
  - cbn [trim_right]. cbn [trim_right] in IH. now rewrite IH.
Qed.

Lemma trim_left_fixed us :
  match us with [] => True | u :: _ => is_space_rune u = false end ->
  trim_left us = us.
Proof.
  destruct us as [|u us]; [reflexivity|]. cbn [trim_left]. now intros ->.
Qed.

Lemma trim_left_head us :
  match trim_left us with [] => True | u :: _ => is_space_rune u = false end.
Proof.
  induction us as [|u us IH]; [exact I|].
  cbn [trim_left]. destruct (is_space_rune u) eqn:E; [exact IH|exact E].
Qed.

Lemma trim_right_head us :
  match us with [] => True | u :: _ => is_space_rune u = false end ->
  match trim_right us with [] => True | u :: _ => is_space_rune u = false end.
Proof.
  destruct us as [|u us]; [intros _; exact I|]. intros Hu. cbn [trim_right].
  destruct (trim_right us); [now rewrite Hu|exact Hu].
Qed.

Lemma TrimSpace_idem s : TrimSpace (TrimSpace s) = TrimSpace s.
Proof.
  unfold TrimSpace at 1. rewrite runes_TrimSpace.
  rewrite (trim_left_fixed (trim_right (trim_left (GoUtf8.runes s)))).
  - now rewrite trim_right_idem.
  - apply trim_right_head, trim_left_head.
Qed.

(** *** The marker test *)

Lemma IsSpace_enum r : GoUnicode.IsSpace r = true -> In r space_runes.
Proof.
  unfold GoUnicode.IsSpace, GoUnicode.White_Space, space_runes.
  cbn [existsb In]. rewrite !orb_true_iff, !andb_true_iff, !N.leb_le. lia.
Qed.

Lemma space_lowered_foreign u :
  is_space_rune u = true ->
  all_chars (foreign_to ".pdf")
    (GoUtf8.EncodeRune (GoUnicode.ToLower (fst u))) = true.
Proof.
  intros H%IsSpace_enum.
  assert (forallb (fun r => all_chars (foreign_to ".pdf")
                              (GoUtf8.EncodeRune (GoUnicode.ToLower r)))
                  space_runes = true) as Hall by (vm_compute; reflexivity).
  rewrite forallb_forall in Hall. exact (Hall _ H).
Qed.

Lemma spaces_lowered_foreign ws :
  Forall (fun u => is_space_rune u = true) ws ->
  all_chars (foreign_to ".pdf")
    (concat_strings
       (map (fun u => GoUtf8.EncodeRune (GoUnicode.ToLower (fst u))) ws))
  = true.
Proof.
  induction 1 as [|u ws Hu _ IH]; [reflexivity|].
  cbn [map concat_strings]. rewrite all_chars_app.
  now rewrite (space_lowered_foreign u Hu), IH.
Qed.

(** Trimming does not change whether a value mentions the marker. *)
Lemma mentions_pdf_TrimSpace v : mentions_pdf (TrimSpace v) = mentions_pdf v.
Proof.
  unfold mentions_pdf, ToLower. rewrite runes_TrimSpace.
  destruct (trim_left_split (GoUtf8.runes v)) as (ws1 & H1 & Hws1).
  destruct (trim_right_split (trim_left (GoUtf8.runes v)))
    as (ws2 & H2 & Hws2).
  set (kept := trim_right (trim_left (GoUtf8.runes v))) in *.
  rewrite H1, H2, !map_app, !concat_strings_app.
  rewrite (Contains_foreign_left ".pdf" _ _ ltac:(discriminate)
             (spaces_lowered_foreign ws1 Hws1)).
  now rewrite (Contains_foreign_back ".pdf" _ _ ltac:(discriminate)
                 eq_refl (spaces_lowered_foreign ws2 Hws2)).
Qed.

End TrimFacts.

(** ** The extractor *)

Lemma Node_ind (P : Node -> Prop) :
  (forall t data attr children,
      Forall P children -> P (mkNode t data attr children)) ->
  forall n, P n.
Proof.
  intros step. fix IH 1. intros [t data attr children].
  apply step. revert children.
  fix IHc 1. intros [|c cs]; constructor; [apply IH|apply IHc].
Qed.

Lemma trimmed_pdf_links_app l1 l2 :
  trimmed_pdf_links (l1 ++ l2) = trimmed_pdf_links l1 ++ trimmed_pdf_links l2.
Proof.
  unfold trimmed_pdf_links. now rewrite List.filter_app, map_app.
Qed.

Lemma scan_attribute_spec pdfLinks a :
  scan_attribute pdfLinks a
  = pdfLinks ++ trimmed_pdf_links (if is_href a then [Val a] else []).
Proof.
  unfold scan_attribute, is_href, trimmed_pdf_links.
  destruct (String.eqb (Key a) "href"); cbn; [|now rewrite app_nil_r].
  rewrite TrimFacts.mentions_pdf_TrimSpace.
  destruct (mentions_pdf (Val a)); cbn; [reflexivity|now rewrite app_nil_r].
Qed.

Lemma scan_attributes_spec attr : forall pdfLinks,
  fold_left scan_attribute attr pdfLinks
  = pdfLinks ++ trimmed_pdf_links (map Val (List.filter is_href attr)).
Proof.
  induction attr as [|a attr IH]; intros pdfLinks.
  - cbn. now rewrite app_nil_r.
  - cbn [fold_left List.filter]. rewrite IH, scan_attribute_spec.
    rewrite <- app_assoc, <- trimmed_pdf_links_app. f_equal. f_equal.
    destruct (is_href a); reflexivity.
Qed.

Lemma document_hrefs_node t data attr children :
  document_hrefs (mkNode t data attr children)
  = anchor_hrefs (mkNode t data attr children)
    ++ flat_map document_hrefs children.
Proof.
  unfold document_hrefs. cbn [preorder flat_map]. f_equal.
  induction children as [|c cs IH]; [reflexivity|].
  cbn [flat_map]. now rewrite flat_map_app, IH.
Qed.

(** The traversal appends to the slice, in document order, the trimmed
    href values that mention the marker. *)
Lemma exploreHTML_spec n : forall pdfLinks,
  exploreHTML n pdfLinks = pdfLinks ++ trimmed_pdf_links (document_hrefs n).
Proof.
  induction n as [t data attr children IH] using Node_ind.
  intros pdfLinks. rewrite document_hrefs_node, trimmed_pdf_links_app.
  cbn [exploreHTML]. unfold anchor_hrefs. cbn [node_is_anchor node_attr].
  set (own := if is_anchor t data
              then map Val (List.filter is_href attr) else []).
  assert ((if is_anchor t data
           then fold_left scan_attribute attr pdfLinks else pdfLinks)
          = pdfLinks ++ trimmed_pdf_links own) as ->.
  { subst own. destruct (is_anchor t data).
    - apply scan_attributes_spec.
    - cbn. now rewrite app_nil_r. }
  rewrite app_assoc.
  generalize (pdfLinks ++ trimmed_pdf_links own) as acc.
  induction IH as [|c cs Hc _ IHcs]; intros acc.
  - cbn. now rewrite app_nil_r.
  - cbn [fold_left flat_map]. rewrite Hc, IHcs, trimmed_pdf_links_app.
    now rewrite app_assoc.
Qed.

Lemma single_href_count n :
  single_href n = true ->
  length (trimmed_pdf_links (anchor_hrefs n))
  = if anchor_matches n then 1 else 0.
Proof.
  unfold single_href, anchor_hrefs, anchor_matches, trimmed_pdf_links.
  rewrite length_map.
  destruct (node_is_anchor n); [|reflexivity]. cbn [andb].
  induction (node_attr n) as [|a attr IH]; [reflexivity|].
  cbn [List.filter existsb]. destruct (is_href a); cbn [andb orb].
  - cbn [length map List.filter]. intros H.
    destruct (List.filter is_href attr) as [|b l] eqn:E; [|discriminate].
    assert (existsb (fun a => is_href a && mentions_pdf (Val a)) attr = false)
      as ->.
    { clear -E. induction attr as [|b attr IH]; [reflexivity|].
      cbn in E |- *. destruct (is_href b); [discriminate|]. cbn. auto. }
    rewrite orb_false_r. destruct (mentions_pdf (Val a)); reflexivity.
  - exact IH.
Qed.

Lemma count_trimmed_links nodes :
  forallb single_href nodes = true ->
  length (trimmed_pdf_links (flat_map anchor_hrefs nodes))
  = length (List.filter anchor_matches nodes).
Proof.
  induction nodes as [|n nodes IH]; [reflexivity|].
  cbn [forallb flat_map List.filter]. intros [Hn Hs]%andb_true_iff.
  rewrite trimmed_pdf_links_app, length_app, (single_href_count n Hn), (IH Hs).
  destruct (anchor_matches n); reflexivity.
Qed.

(** C4 as stated fails: the link returned for an href padded with white
    space is not the href value. *)
Lemma extractPDFUrls_padded_href_differs :
  extractPDFUrls (fun _ => inl padded_href_page)
    "<a href='  Doc.PDF '>manual</a>" = ["Doc.PDF"]
  /\ List.filter mentions_pdf (document_hrefs padded_href_page)
     = ["  Doc.PDF "]
  /\ extractPDFUrls (fun _ => inl padded_href_page)
       "<a href='  Doc.PDF '>manual</a>"
     <> List.filter mentions_pdf (document_hrefs padded_href_page).
Proof. repeat split; vm_compute; congruence. Qed.

(** C4 (amended).  When the markup parses to [tree], [extractPDFUrls]
    returns, in document order (depth first, children from first to last, at
    any depth), the href values of the anchors that mention [.pdf] whatever
    the case, each with its leading and trailing white space removed; when no
    anchor repeats the href attribute these are exactly [N] links, [N] being
    the number of anchors that carry such an href. *)
Theorem extractPDFUrls_document_order
  (Parse : string -> Node + string) (htmlContent : string) (tree : Node) :
  Parse htmlContent = inl tree ->
  extractPDFUrls Parse htmlContent
  = map GoStrings.TrimSpace (List.filter mentions_pdf (document_hrefs tree))
  /\ (hrefs_not_repeated tree = true ->
      length (extractPDFUrls Parse htmlContent) = count_matching_anchors tree).
Proof.
  intros HP. unfold extractPDFUrls. rewrite HP, exploreHTML_spec. cbn [app].
  split; [reflexivity|].
  intros H. apply count_trimmed_links, H.
Qed.

Lemma extractPDFUrls_document_order_witness :
  extractPDFUrls (fun _ => inl sample_page) "<html>"
  = ["/files/One.PDF"; "two.Pdf?v=3"; "/three.pdf"]
  /\ length (extractPDFUrls (fun _ => inl sample_page) "<html>") = 3.
Proof.
  destruct (extractPDFUrls_document_order
              (fun _ => inl sample_page) "<html>" sample_page eq_refl)
    as [Hlinks Hcount].
  split.
  - rewrite Hlinks. vm_compute. reflexivity.
  - rewrite Hcount; vm_compute; reflexivity.
Defined.

(** C10.  Every link [extractPDFUrls] returns is the value of an href
    attribute of an anchor of the parsed tree with its leading and trailing
    white space removed, and it is this trimmed value that passed the
    case-insensitive [.pdf] test; an anchor whose href is [  Doc.PDF ] yields
    the link [Doc.PDF]. *)
Theorem extractPDFUrls_links_are_trimmed
  (Parse : string -> Node + string) (htmlContent link : string) :
  In link (extractPDFUrls Parse htmlContent) ->
  exists tree n a,
    Parse htmlContent = inl tree
    /\ In n (preorder tree) /\ node_is_anchor n = true
    /\ In a (node_attr n) /\ Key a = "href"
    /\ link = GoStrings.TrimSpace (Val a)
    /\ GoStrings.Contains
         (GoStrings.ToLower (GoStrings.TrimSpace (Val a))) ".pdf" = true.
Proof.
  unfold extractPDFUrls. destruct (Parse htmlContent) as [tree|err] eqn:HP.
  2:{ intros []. }
  rewrite exploreHTML_spec. cbn [app]. unfold trimmed_pdf_links.
  intros (v & <- & Hv)%in_map_iff.
  apply filter_In in Hv as [Hv Hm].
  unfold document_hrefs in Hv.
  apply in_flat_map in Hv as (n & Hn & Hv).
  unfold anchor_hrefs in Hv.
  destruct (node_is_anchor n) eqn:Ha; [|destruct Hv].
  apply in_map_iff in Hv as (a & <- & Hin).
  apply filter_In in Hin as [Hin Hh].
  exists tree, n, a. repeat split; try assumption.
  - now apply String.eqb_eq.
  - fold (mentions_pdf (GoStrings.TrimSpace (Val a))).
    now rewrite TrimFacts.mentions_pdf_TrimSpace.
Qed.

Lemma extractPDFUrls_links_are_trimmed_witness :
  extractPDFUrls (fun _ => inl padded_href_page)
    "<a href='  Doc.PDF '>manual</a>" = ["Doc.PDF"]
  /\ exists tree n a,
      (fun _ : string => inl padded_href_page : Node + string)
        "<a href='  Doc.PDF '>manual</a>" = inl tree
      /\ In n (preorder tree) /\ node_is_anchor n = true
      /\ In a (node_attr n) /\ Key a = "href"
      /\ "Doc.PDF" = GoStrings.TrimSpace (Val a)
      /\ GoStrings.Contains
           (GoStrings.ToLower (GoStrings.TrimSpace (Val a))) ".pdf" = true.
Proof.
  split; [vm_compute; reflexivity|].
  apply (extractPDFUrls_links_are_trimmed
           (fun _ => inl padded_href_page)
           "<a href='  Doc.PDF '>manual</a>" "Doc.PDF").
  vm_compute. left. reflexivity.
Defined.

(** ** The fetcher *)

Ltac run_fetch :=
  unfold downloadPDF, fileExists, http_Get, io_Copy, os_Create,
    buffer_WriteTo, with_defer, log_Printf, emit, os_Stat, bind, ret;
  cbn [fst snd fs trace].

Ltac tidy_world :=
  unfold after, stored; cbn [fs trace is_None_bool];
  rewrite <- ?app_assoc; cbn [app];
  rewrite ?insert_insert_eq; try reflexivity.

Lemma downloadPDF_run env pdfURL outputDirectory w :
  downloadPDF env pdfURL outputDirectory w
  = fetch_outcome env pdfURL outputDirectory w.
Proof.
  unfold fetch_outcome, acceptable_content_type. run_fetch.
  fold (destination pdfURL outputDirectory).
  set (dest := destination pdfURL outputDirectory).
  destruct (fs w !! dest) as [[c|]|] eqn:Hd; cbn [IsDir negb];
    [tidy_world| |];
    (destruct (http_get env pdfURL) as [r|e]; [|tidy_world];
     destruct (negb (StatusCode r =? StatusOK)%Z); [tidy_world|];
     rewrite <- negb_orb;
     destruct (negb (GoStrings.Contains (ContentType r) "binary/octet-stream"
                     || GoStrings.Contains (ContentType r) "application/pdf"));
       [tidy_world|];
     cbn [fs trace];
     destruct (BodyErr r) as [e|]; [tidy_world|];
     destruct (String.length (Body r) =? 0)%nat; [tidy_world|];
     cbn [fs trace]; rewrite Hd;
     try (destruct (create_refused env dest) as [e|]); [tidy_world..|];
     cbn [fs trace];
     destruct (write_fault env dest (String.length (Body r))) as [[k e]|];
     tidy_world).
Qed.

(** Whatever happens, the file store is the old one, or the old one with a
    file put at a destination where [os.Stat] had found nothing. *)
Lemma downloadPDF_store env pdfURL outputDirectory w :
  let w' := snd (downloadPDF env pdfURL outputDirectory w) in
  fs w' = fs w
  \/ (fs w !! destination pdfURL outputDirectory = None
      /\ exists content,
          fs w' = <[destination pdfURL outputDirectory := FsFile content]> (fs w)).
Proof.
  cbn zeta. rewrite downloadPDF_run. unfold fetch_outcome.
  set (dest := destination pdfURL outputDirectory).
  destruct (fs w !! dest) as [[c|]|] eqn:Hd; [now left| |];
    (destruct (http_get env pdfURL) as [r|e]; [|now left];
     destruct (negb (StatusCode r =? StatusOK)%Z); [now left|];
     destruct (negb (acceptable_content_type (ContentType r))); [now left|];
     destruct (BodyErr r) as [e|]; [now left|];
     destruct (String.length (Body r) =? 0)%nat; [now left|];
     first
       [ now left
       | destruct (create_refused env dest) as [e|]; [now left|];
         destruct (write_fault env dest (String.length (Body r))) as [[k e]|];
         right; (split; [reflexivity|]); eexists; reflexivity ]).
Qed.

(** C1.  When a file already exists at the destination path (the directory
    joined with the sanitized name), [downloadPDF] returns at once: its only
    event is the skip message, so it issues no HTTP request and creates or
    writes nothing, the file store is untouched and the result is [false].
    Consequently no call of [downloadPDF], in any world, changes a file that
    exists. *)
Theorem downloadPDF_never_overwrites
  (env : Env) (pdfURL outputDirectory : string) (w : World) :
  let fullFilePath :=
    GoFilepath.Join outputDirectory
      (GoStrings.ToLower (urlToFilename pdfURL)) in
  (forall content,
      fs w !! fullFilePath = Some (FsFile content) ->
      downloadPDF env pdfURL outputDirectory w
      = (false, {| fs := fs w;
                   trace := trace w ++ [EvLog (LogFileExists fullFilePath)] |}))
  /\ (forall path content,
        fs w !! path = Some (FsFile content) ->
        fs (snd (downloadPDF env pdfURL outputDirectory w)) !! path
        = Some (FsFile content)).
Proof.
  cbn zeta. fold (destination pdfURL outputDirectory). split.
  - intros content H. rewrite downloadPDF_run. unfold fetch_outcome.
    now rewrite H.
  - intros path content H.
    destruct (downloadPDF_store env pdfURL outputDirectory w)
      as [-> | (Hnone & c & ->)]; [exact H|].
    rewrite lookup_insert_ne; [exact H|].
    intros <-. rewrite H in Hnone. discriminate.
Qed.

Lemma downloadPDF_never_overwrites_witness :
  fs store_with_manual !! "PDFs/manual.pdf" = Some (FsFile "old")
  /\ downloadPDF (serving "application/pdf" "%PDF-1.7 new")
       "https://example.com/docs/Manual.PDF?v=2" "PDFs/" store_with_manual
     = (false, {| fs := fs store_with_manual;
                  trace := [EvLog (LogFileExists "PDFs/manual.pdf")] |})
  /\ fs (snd (downloadPDF (serving "application/pdf" "%PDF-1.7 new")
                "https://example.com/docs/Manual.PDF?v=2" "PDFs/"
                store_with_manual)) !! "PDFs/manual.pdf"
     = Some (FsFile "old").
Proof.
  destruct (downloadPDF_never_overwrites
              (serving "application/pdf" "%PDF-1.7 new")
              "https://example.com/docs/Manual.PDF?v=2" "PDFs/"
              store_with_manual) as [Hskip Hkeep].
  assert (fs store_with_manual !! "PDFs/manual.pdf" = Some (FsFile "old"))
    as Hold by (vm_compute; reflexivity).
  split; [exact Hold|]. split.
  - exact (Hskip "old" Hold).
  - exact (Hkeep "PDFs/manual.pdf" "old" Hold).
Defined.

(** C2.  A 200 response whose declared content type contains neither
    [application/pdf] nor [binary/octet-stream] makes [downloadPDF] return
    [false] and leaves the file store as it was, whatever the body holds;
    when the request was issued (no file was in the way) the call logs the
    invalid content type and ends without reading the body or creating a
    file. *)
Theorem downloadPDF_content_type_gate
  (env : Env) (pdfURL outputDirectory : string) (w : World) (resp : Response) :
  http_get env pdfURL = inl resp ->
  StatusCode resp = 200%Z ->
  GoStrings.Contains (ContentType resp) "application/pdf" = false ->
  GoStrings.Contains (ContentType resp) "binary/octet-stream" = false ->
  let run := downloadPDF env pdfURL outputDirectory w in
  fst run = false
  /\ fs (snd run) = fs w
  /\ ((forall c, fs w !! destination pdfURL outputDirectory <> Some (FsFile c)) ->
      run = (false,
             {| fs := fs w;
                trace := trace w ++
                  [EvHttpGet pdfURL;
                   EvLog (LogInvalidContentType pdfURL (ContentType resp));
                   EvBodyClose] |})).
Proof.
  intros Hget Hstatus Hpdf Hbin. cbn zeta.
  rewrite downloadPDF_run. unfold fetch_outcome.
  rewrite Hget, Hstatus. unfold acceptable_content_type.
  rewrite Hpdf, Hbin. cbn [orb negb Z.eqb StatusOK Pos.eqb].
  destruct (fs w !! destination pdfURL outputDirectory) as [[c|]|] eqn:Hd;
    cbn [fst snd after fs]; repeat split; try reflexivity.
  intros Hno. now destruct (Hno c).
Qed.

Lemma downloadPDF_content_type_gate_witness :
  downloadPDF (serving "text/html; charset=utf-8" "%PDF-1.7 body")
    "https://example.com/docs/Manual.PDF" "PDFs/" empty_store
  = (false,
     {| fs := fs empty_store;
        trace :=
          [EvHttpGet "https://example.com/docs/Manual.PDF";
           EvLog (LogInvalidContentType "https://example.com/docs/Manual.PDF"
                    "text/html; charset=utf-8");
           EvBodyClose] |}).
Proof.
  apply (downloadPDF_content_type_gate
           (serving "text/html; charset=utf-8" "%PDF-1.7 body")
           "https://example.com/docs/Manual.PDF" "PDFs/" empty_store
           (mkResponse 200 "200 OK" "text/html; charset=utf-8"
              "%PDF-1.7 body" None)
           eq_refl eq_refl eq_refl eq_refl).
  intros c. vm_compute. discriminate.
Defined.

(** C5.  A 200 response with an acceptable content type and an empty body
    makes [downloadPDF] return [false] and leaves the file store as it was;
    when the request was issued and the read ended cleanly, the call logs
    the zero-byte download and ends without creating a file. *)
Theorem downloadPDF_zero_byte_gate
  (env : Env) (pdfURL outputDirectory : string) (w : World) (resp : Response) :
  http_get env pdfURL = inl resp ->
  StatusCode resp = 200%Z ->
  acceptable_content_type (ContentType resp) = true ->
  Body resp = "" ->
  let run := downloadPDF env pdfURL outputDirectory w in
  fst run = false
  /\ fs (snd run) = fs w
  /\ ((forall c, fs w !! destination pdfURL outputDirectory <> Some (FsFile c)) ->
      BodyErr resp = None ->
      run = (false,
             {| fs := fs w;
                trace := trace w ++
                  [EvHttpGet pdfURL; EvBodyRead 0 true;
                   EvLog (LogZeroBytes pdfURL); EvBodyClose] |})).
Proof.
  intros Hget Hstatus Hct Hbody. cbn zeta.
  rewrite downloadPDF_run. unfold fetch_outcome.
  rewrite Hget, Hstatus, Hct, Hbody.
  cbn [orb negb Z.eqb StatusOK Pos.eqb String.length Nat.eqb].
  destruct (fs w !! destination pdfURL outputDirectory) as [[c|]|] eqn:Hd;
    destruct (BodyErr resp) as [e|];
    cbn [fst snd after fs]; repeat split; try reflexivity;
    try discriminate; intros Hno; now destruct (Hno c).
Qed.

Lemma downloadPDF_zero_byte_gate_witness :
  downloadPDF (serving "application/pdf" "")
    "https://example.com/docs/Manual.PDF" "PDFs/" empty_store
  = (false,
     {| fs := fs empty_store;
        trace :=
          [EvHttpGet "https://example.com/docs/Manual.PDF";
           EvBodyRead 0 true;
           EvLog (LogZeroBytes "https://example.com/docs/Manual.PDF");
           EvBodyClose] |}).
Proof.
  apply (downloadPDF_zero_byte_gate
           (serving "application/pdf" "")
           "https://example.com/docs/Manual.PDF" "PDFs/" empty_store
           (mkResponse 200 "200 OK" "application/pdf" "" None)
           eq_refl eq_refl eq_refl eq_refl).
  - intros c. vm_compute. discriminate.
  - reflexivity.
Defined.

(** ** Order of the read and the creation *)

Lemma reads_before_creates_split pre : forall seen path ok post,
  reads_before_creates seen (pre ++ EvCreate path ok :: post) = true ->
  seen = true \/ exists n, 0 < n /\ In (EvBodyRead n true) pre.
Proof.
  induction pre as [|e pre IH]; intros seen path ok post H.
  - cbn in H. apply andb_true_iff in H as [H _]. now left.
  - rewrite <- app_comm_cons in H.
    destruct e as [m|u|n b| |p b|p n b|p]; cbn [reads_before_creates] in H.
    3:{ apply IH in H as [H | (k & Hk & Hin)].
        - apply orb_true_iff in H as [H | H]; [now left|].
          apply andb_true_iff in H as [-> Hn]. apply Nat.ltb_lt in Hn.
          right. exists n. split; [exact Hn|now left].
        - right. exists k. split; [exact Hk|now right]. }
    4:{ apply andb_true_iff in H as [_ H]. apply IH in H as [H | (k & Hk & Hin)];
        [now left|]. right. exists k. split; [exact Hk|now right]. }
    all: apply IH in H as [H | (k & Hk & Hin)]; [now left|];
      right; exists k; (split; [exact Hk|now right]).
Qed.

(** One way out of [fetch_outcome]: read off the events and check them. *)
Ltac trace_leaf :=
  eexists; split; [reflexivity|]; split; [reflexivity|];
  let n := fresh "n" in
  let ok := fresh "ok" in
  let Hin := fresh "Hin" in
  intros n ok Hin; cbn in Hin;
  repeat match type of Hin with
         | _ \/ _ => destruct Hin as [Hin|Hin]
         end;
  first
    [ discriminate Hin
    | contradiction
    | injection Hin as <- <-; eexists; split; [reflexivity|];
      split; [congruence|];
      match goal with
      | H : BodyErr _ = _ |- _ => now rewrite H
      end ].

(** The events of one call: they extend the trace, every creation follows
    a complete non-empty read, and a read is reported with the length of
    the body and with whether it ended cleanly. *)
Lemma downloadPDF_events env pdfURL outputDirectory w :
  exists evs,
    trace (snd (downloadPDF env pdfURL outputDirectory w)) = trace w ++ evs
    /\ reads_before_creates false evs = true
    /\ (forall n ok, In (EvBodyRead n ok) evs ->
        exists r, http_get env pdfURL = inl r
                  /\ n = String.length (Body r)
                  /\ ok = is_None_bool (BodyErr r)).
Proof.
  rewrite downloadPDF_run. unfold fetch_outcome.
  set (dest := destination pdfURL outputDirectory).
  destruct (fs w !! dest) as [[c|]|] eqn:Hd; [trace_leaf| |];
    (destruct (http_get env pdfURL) as [r|e] eqn:Hget; [|trace_leaf];
     destruct (negb (StatusCode r =? StatusOK)%Z); [trace_leaf|];
     destruct (negb (acceptable_content_type (ContentType r))); [trace_leaf|];
     destruct (BodyErr r) as [e|] eqn:Herr; [trace_leaf|];
     destruct (String.length (Body r)) as [|k] eqn:Hlen; cbn [Nat.eqb];
     [trace_leaf|];
     first
       [ trace_leaf
       | destruct (create_refused env dest) as [e|]; [trace_leaf|];
         destruct (write_fault env dest (S k)) as [[j e]|]; trace_leaf ]).
Qed.

(** C6.  In every run of [downloadPDF], an attempt to create the
    destination file comes only after the read of the response body has
    ended cleanly with the whole body, of at least one byte, in the buffer;
    and when the read fails the file store is left as it was. *)
Theorem downloadPDF_reads_before_creating
  (env : Env) (pdfURL outputDirectory : string) (w : World) :
  exists evs,
    trace (snd (downloadPDF env pdfURL outputDirectory w)) = trace w ++ evs
    /\ (forall pre path ok post,
          evs = pre ++ EvCreate path ok :: post ->
          exists r,
            http_get env pdfURL = inl r
            /\ BodyErr r = None
            /\ 0 < String.length (Body r)
            /\ In (EvBodyRead (String.length (Body r)) true) pre)
    /\ (forall r e,
          http_get env pdfURL = inl r ->
          BodyErr r = Some e ->
          fs (snd (downloadPDF env pdfURL outputDirectory w)) = fs w).
Proof.
  destruct (downloadPDF_events env pdfURL outputDirectory w)
    as (evs & Htr & Hord & Hread).
  exists evs. split; [exact Htr|]. split.
  - intros pre path ok post ->.
    apply reads_before_creates_split in Hord as [Hord | (n & Hn & Hin)];
      [discriminate Hord|].
    destruct (Hread n true) as (r & Hget & -> & Herr).
    { apply in_or_app. now left. }
    exists r. repeat split; try assumption.
    destruct (BodyErr r); [discriminate Herr|reflexivity].
  - intros r e Hget Herr. rewrite downloadPDF_run. unfold fetch_outcome.
    rewrite Hget, Herr.
    destruct (fs w !! destination pdfURL outputDirectory) as [[c|]|];
      [reflexivity| |];
      destruct (negb (StatusCode r =? StatusOK)%Z); try reflexivity;
      destruct (negb (acceptable_content_type (ContentType r))); reflexivity.
Qed.

Lemma downloadPDF_reads_before_creating_witness :
  (exists r,
      http_get (serving "application/pdf" "%PDF-1.7 body")
        "https://example.com/docs/Manual.PDF" = inl r
      /\ BodyErr r = None
      /\ 0 < String.length (Body r)
      /\ In (EvBodyRead (String.length (Body r)) true)
           [EvHttpGet "https://example.com/docs/Manual.PDF";
            EvBodyRead 13 true])
  /\ fs (snd (downloadPDF (serving_broken "application/pdf" "%PDF-1.7 bo")
                "https://example.com/docs/Manual.PDF" "PDFs/" empty_store))
     = fs empty_store.
Proof.
  split.
  - destruct (downloadPDF_reads_before_creating
                (serving "application/pdf" "%PDF-1.7 body")
                "https://example.com/docs/Manual.PDF" "PDFs/" empty_store)
      as (evs & Htr & Hord & _).
    vm_compute in Htr. subst evs.
    apply (Hord [EvHttpGet "https://example.com/docs/Manual.PDF";
                 EvBodyRead 13 true]
                "PDFs/manual.pdf" true
                [EvWrite "PDFs/manual.pdf" 13 true;
                 EvLog (LogSuccess 13 "https://example.com/docs/Manual.PDF"
                          "PDFs/manual.pdf");
                 EvFileClose "PDFs/manual.pdf"; EvBodyClose]).
    reflexivity.
  - destruct (downloadPDF_reads_before_creating
                (serving_broken "application/pdf" "%PDF-1.7 bo")
                "https://example.com/docs/Manual.PDF" "PDFs/" empty_store)
      as (evs & _ & _ & Hfail).
    apply (Hfail (mkResponse 200 "200 OK" "application/pdf" "%PDF-1.7 bo"
                    (Some "unexpected EOF"))
                 "unexpected EOF"); reflexivity.
Defined.

(** C9.  The gate lets through only content types that contain
    [binary/octet-stream] or [application/pdf]: a call that returns [true]
    or changes the file store had such a response.  In particular a 200
    response declared [application/octet-stream] is refused: the call logs
    the invalid content type and returns [false] with the file store as it
    was, whatever the body. *)
Theorem downloadPDF_octet_stream_refused
  (env : Env) (pdfURL outputDirectory : string) (w : World) :
  let run := downloadPDF env pdfURL outputDirectory w in
  (fst run = true \/ fs (snd run) <> fs w ->
   exists r,
     http_get env pdfURL = inl r
     /\ (GoStrings.Contains (ContentType r) "binary/octet-stream" = true
         \/ GoStrings.Contains (ContentType r) "application/pdf" = true))
  /\ (forall r,
        http_get env pdfURL = inl r ->
        StatusCode r = 200%Z ->
        ContentType r = "application/octet-stream" ->
        (forall c, fs w !! destination pdfURL outputDirectory
                   <> Some (FsFile c)) ->
        run = (false,
               {| fs := fs w;
                  trace := trace w ++
                    [EvHttpGet pdfURL;
                     EvLog (LogInvalidContentType pdfURL
                              "application/octet-stream");
                     EvBodyClose] |})).
Proof.
  cbn zeta. rewrite downloadPDF_run. unfold fetch_outcome. split.
  - intros Hgo.
    assert (forall w' : World,
               fs w' = fs w ->
               (false = true \/ fs w' <> fs w) -> False) as Hstay.
    { intros w' Hfs [Hf | Hf]; [discriminate Hf|exact (Hf Hfs)]. }
    destruct (fs w !! destination pdfURL outputDirectory) as [[c|]|];
      [exfalso; exact (Hstay _ eq_refl Hgo)| |];
      (destruct (http_get env pdfURL) as [r|e];
       [|exfalso; exact (Hstay _ eq_refl Hgo)];
       destruct (negb (StatusCode r =? StatusOK)%Z);
       [exfalso; exact (Hstay _ eq_refl Hgo)|];
       destruct (acceptable_content_type (ContentType r)) eqn:Hct;
       [|exfalso; exact (Hstay _ eq_refl Hgo)];
       exists r; split; [reflexivity|];
       now apply orb_true_iff in Hct).
  - intros r Hget Hstatus Hct Hno. rewrite Hget, Hstatus, Hct.
    destruct (fs w !! destination pdfURL outputDirectory) as [[c|]|];
      [now destruct (Hno c)|reflexivity|reflexivity].
Qed.

Lemma downloadPDF_octet_stream_refused_witness :
  downloadPDF (serving "application/octet-stream" "%PDF-1.7 body")
    "https://example.com/docs/Manual.PDF" "PDFs/" empty_store
  = (false,
     {| fs := fs empty_store;
        trace :=
          [EvHttpGet "https://example.com/docs/Manual.PDF";
           EvLog (LogInvalidContentType "https://example.com/docs/Manual.PDF"
                    "application/octet-stream");
           EvBodyClose] |})
  /\ exists r,
      http_get (serving "application/pdf" "%PDF-1.7 body")
        "https://example.com/docs/Manual.PDF" = inl r
      /\ (GoStrings.Contains (ContentType r) "binary/octet-stream" = true
          \/ GoStrings.Contains (ContentType r) "application/pdf" = true).
Proof.
  split.
  - apply (proj2 (downloadPDF_octet_stream_refused
                    (serving "application/octet-stream" "%PDF-1.7 body")
                    "https://example.com/docs/Manual.PDF" "PDFs/" empty_store)
             (mkResponse 200 "200 OK" "application/octet-stream"
                "%PDF-1.7 body" None)); try reflexivity.
    intros c. vm_compute. discriminate.
  - apply (proj1 (downloadPDF_octet_stream_refused
                    (serving "application/pdf" "%PDF-1.7 body")
                    "https://example.com/docs/Manual.PDF" "PDFs/" empty_store)).
    left. vm_compute. reflexivity.
Defined.


(** * Further properties of the code *)

(** ** More on strings *)

Lemma count_char_zero c s :
  count_char c s = 0 ->
  all_chars (fun d => negb (Ascii.eqb d c)) s = true.
Proof.
  induction s as [|d s IH]; cbn; [reflexivity|].
  destruct (Ascii.eqb d c); cbn; [discriminate|exact IH].
Qed.

(** Text after the first separator does not reach the head. *)
Lemma SplitHead_app s sep rest :
  GoStrings.SplitHead (s +:+ String sep rest) sep = GoStrings.SplitHead s sep.
Proof.
  induction s as [|c s IH].
  - rewrite append_nil. cbn. now rewrite Ascii.eqb_refl.
  - rewrite append_cons. cbn. destruct (Ascii.eqb c sep); [reflexivity|].
    now rewrite IH.
Qed.

Lemma SplitHead_absent s sep :
  count_char sep s = 0 -> GoStrings.SplitHead s sep = s.
Proof.
  induction s as [|c s IH]; cbn; [reflexivity|].
  destruct (Ascii.eqb c sep); cbn; [discriminate|].
  intros H. now rewrite (IH H).
Qed.

Ltac nlia := zify; Z.to_euclidean_division_equations; lia.

(** ** Runes and their bytes *)

Module RuneFacts.
Import GoUtf8 GoUtf8Facts.

Lemma byte_of_byte n : (n < 256)%N -> byte (of_byte n) = n.
Proof. apply N_ascii_embedding. Qed.

Lemma of_byte_byte c : of_byte (byte c) = c.
Proof. apply ascii_N_embedding. Qed.

Lemma decode_ascii c t :
  (byte c < 128)%N -> DecodeRuneInString (String c t) = (byte c, 1).
Proof.
  intros H%N.ltb_lt. unfold DecodeRuneInString. now rewrite H.
Qed.

Lemma runes_ascii c t :
  (byte c < 128)%N -> runes (String c t) = (byte c, String c "") :: runes t.
Proof. intros H. rewrite runes_cons, (decode_ascii c t H). reflexivity. Qed.

Lemma lead_spec c0 sz lo hi :
  lead c0 = Some (sz, lo, hi) ->
  (sz = 2%nat /\ 194 <= byte c0 <= 223 /\ lo = 128 /\ hi = 191)%N
  \/ (sz = 3%nat /\ 224 <= byte c0 <= 239 /\ 128 <= lo /\ hi = 191
      /\ (byte c0 = 224 -> lo = 160))%N
  \/ (sz = 3%nat /\ byte c0 = 237 /\ lo = 128 /\ hi = 159)%N
  \/ (sz = 4%nat /\ 240 <= byte c0 <= 243 /\ 128 <= lo /\ hi = 191
      /\ (byte c0 = 240 -> lo = 144))%N
  \/ (sz = 4%nat /\ byte c0 = 244 /\ lo = 128 /\ hi = 143)%N.
Proof.
  unfold lead.
  repeat match goal with
         | |- context [if ?b then _ else _] => destruct b eqn:?
         end; intros [= <- <- <-]; lia.
Qed.

(** A rune below 128 is read from one byte of that value only. *)
Lemma decode_high s r w :
  DecodeRuneInString s = (r, w) ->
  (exists c t, s = String c t /\ (byte c < 128)%N /\ r = byte c /\ w = 1)
  \/ (128 <= r)%N.
Proof.
  unfold DecodeRuneInString. destruct s as [|c0 rest].
  { intros [= <- <-]. right. unfold RuneError. lia. }
  destruct (N.ltb (byte c0) 128) eqn:E0.
  { intros [= <- <-]. left. exists c0, rest. repeat split. lia. }
  destruct (lead c0) as [[[sz lo] hi]|] eqn:L.
  2:{ intros [= <- <-]. right. unfold RuneError. lia. }
  apply lead_spec in L.
  unfold rune2, rune3, rune4, low6, in_range, is_cont, in_range, RuneError.
  split_matches; intros [= <- <-]; right; try lia; nlia.
Qed.

Lemma encode_nonempty r : EncodeRune r <> "".
Proof. unfold EncodeRune. split_matches; discriminate. Qed.

Lemma written_rune_range r :
  (written_rune r <= 1114111)%N
  /\ ~ (55296 <= written_rune r <= 57343)%N.
Proof. unfold written_rune, RuneError. split_matches; lia. Qed.

Lemma written_rune_idem r : written_rune (written_rune r) = written_rune r.
Proof.
  destruct (written_rune_range r) as [H1 H2]. unfold written_rune at 1.
  split_matches; [lia|reflexivity].
Qed.

Lemma encode_written r : EncodeRune (written_rune r) = EncodeRune r.
Proof.
  unfold EncodeRune. fold (written_rune (written_rune r)).
  fold (written_rune r). now rewrite written_rune_idem.
Qed.

Ltac split_ifs :=
  repeat match goal with
         | |- context [if ?b then _ else _] => destruct b eqn:?
         end.

Lemma decode2 c0 c1 t :
  (194 <= byte c0 <= 223)%N -> (128 <= byte c1 <= 191)%N ->
  DecodeRuneInString (String c0 (String c1 t)) = (rune2 c0 c1, 2).
Proof.
  intros H0 H1. unfold DecodeRuneInString, lead, in_range.
  split_ifs; try reflexivity; lia.
Qed.

Lemma decode3 c0 c1 c2 t :
  (224 <= byte c0 <= 239)%N -> (128 <= byte c1 <= 191)%N ->
  (byte c0 = 224 -> 160 <= byte c1)%N ->
  (byte c0 = 237 -> byte c1 <= 159)%N ->
  (128 <= byte c2 <= 191)%N ->
  DecodeRuneInString (String c0 (String c1 (String c2 t)))
  = (rune3 c0 c1 c2, 3).
Proof.
  intros H0 H1 Hlo Hhi H2. unfold DecodeRuneInString, lead, is_cont, in_range.
  split_ifs; try reflexivity; lia.
Qed.

Lemma decode4 c0 c1 c2 c3 t :
  (240 <= byte c0 <= 244)%N -> (128 <= byte c1 <= 191)%N ->
  (byte c0 = 240 -> 144 <= byte c1)%N ->
  (byte c0 = 244 -> byte c1 <= 143)%N ->
  (128 <= byte c2 <= 191)%N -> (128 <= byte c3 <= 191)%N ->
  DecodeRuneInString (String c0 (String c1 (String c2 (String c3 t))))
  = (rune4 c0 c1 c2 c3, 4).
Proof.
  intros H0 H1 Hlo Hhi H2 H3.
  unfold DecodeRuneInString, lead, is_cont, in_range.
  split_ifs; try reflexivity; lia.
Qed.

(** Reading back what [EncodeRune] wrote. *)
Lemma decode_encode r t :
  DecodeRuneInString (EncodeRune r +:+ t)
  = (written_rune r, String.length (EncodeRune r)).
Proof.
  destruct (written_rune_range r) as [H1 H2].
  unfold EncodeRune. fold (written_rune r).
  set (v := written_rune r) in *. clearbody v.
  destruct (N.ltb v 128) eqn:E1.
  { rewrite append_cons, decode_ascii; rewrite byte_of_byte; try lia.
    reflexivity. }
  destruct (N.ltb v 2048) eqn:E2.
  { rewrite !append_cons, append_nil.
    rewrite decode2; rewrite ?byte_of_byte; try nlia.
    cbn [String.length]. f_equal. unfold rune2, low6.
    rewrite !byte_of_byte; nlia. }
  destruct (N.ltb v 65536) eqn:E3.
  { rewrite !append_cons, append_nil.
    rewrite decode3; rewrite ?byte_of_byte; try nlia.
    cbn [String.length]. f_equal. unfold rune3, low6.
    rewrite !byte_of_byte; nlia. }
  rewrite !append_cons, append_nil.
  rewrite decode4; rewrite ?byte_of_byte; try nlia.
  cbn [String.length]. f_equal. unfold rune4, low6.
  rewrite !byte_of_byte; nlia.
Qed.

Lemma runes_encode r t :
  runes (EncodeRune r +:+ t) = (written_rune r, EncodeRune r) :: runes t.
Proof.
  pose proof (decode_encode r t) as D.
  pose proof (take_all (EncodeRune r) t) as Ht.
  pose proof (drop_all (EncodeRune r) t) as Hd.
  destruct (EncodeRune r) as [|c s] eqn:E; [now apply encode_nonempty in E|].
  rewrite append_cons in *. rewrite runes_cons, D. cbn [fst snd].
  now rewrite Ht, Hd.
Qed.

Lemma runes_encoded rs :
  runes (concat_strings (map EncodeRune rs))
  = map (fun r => (written_rune r, EncodeRune r)) rs.
Proof.
  induction rs as [|r rs IH]; [reflexivity|].
  cbn [map concat_strings]. now rewrite runes_encode, IH.
Qed.

End RuneFacts.

(** ** Lower case *)

Module LowerFacts.
Import GoUtf8 GoUtf8Facts RuneFacts.

(** [strings.ToLower] works rune by rune. *)
Lemma ToLower_app_start s c q :
  is_cont c = false ->
  GoStrings.ToLower (s +:+ String c q)
  = GoStrings.ToLower s +:+ GoStrings.ToLower (String c q).
Proof.
  intros Hc. unfold GoStrings.ToLower.
  now rewrite (runes_before_start s c q Hc), map_app, TrimFacts.concat_strings_app.
Qed.

Lemma ToLower_ascii c q :
  (byte c < 128)%N ->
  GoStrings.ToLower (String c q)
  = EncodeRune (GoUnicode.ToLower (byte c)) +:+ GoStrings.ToLower q.
Proof.
  intros Hc. unfold GoStrings.ToLower. now rewrite (runes_ascii c q Hc).
Qed.

Lemma ToLower_cons c s :
  GoStrings.ToLower (String c s)
  = EncodeRune (GoUnicode.ToLower (fst (DecodeRuneInString (String c s))))
    +:+ GoStrings.ToLower
          (drop (snd (DecodeRuneInString (String c s))) (String c s)).
Proof. unfold GoStrings.ToLower. now rewrite runes_cons. Qed.

Lemma ToLower_nonempty s : s <> "" -> GoStrings.ToLower s <> "".
Proof.
  destruct s as [|c s]; [congruence|]. intros _. rewrite ToLower_cons.
  pose proof (encode_nonempty
                (GoUnicode.ToLower (fst (DecodeRuneInString (String c s))))).
  destruct (EncodeRune _); [congruence|discriminate].
Qed.

(** The runes of a lower-cased string. *)
Lemma runes_ToLower s :
  runes (GoStrings.ToLower s)
  = map (fun u => (written_rune (GoUnicode.ToLower (fst u)),
                   EncodeRune (GoUnicode.ToLower (fst u)))) (runes s).
Proof.
  unfold GoStrings.ToLower.
  rewrite <- (map_map (fun u => GoUnicode.ToLower (fst u)) EncodeRune).
  rewrite runes_encoded. now rewrite map_map.
Qed.

(** *** The case table *)

Lemma range_points_In n : forall lo r stride,
  (lo <= r)%N -> ((r - lo) mod stride = 0)%N ->
  ((r - lo) / stride < N.of_nat n)%N ->
  In r (range_points n lo stride).
Proof.
  induction n as [|n IH]; intros lo r stride Hlo Hmod Hdiv;
    [pose proof (N.le_0_l ((r - lo) / stride)); lia|].
  cbn [range_points]. destruct (N.eq_dec r lo) as [->|Hne]; [now left|].
  right. destruct (N.eq_dec stride 0%N) as [->|Hs].
  { rewrite N.mod_0_r in Hmod. lia. }
  pose proof (N.Div0.div_mod (r - lo) stride) as Hdm. rewrite Hmod in Hdm.
  set (q := ((r - lo) / stride)%N) in *.
  assert (q <> 0)%N as Hq by (intros Hq0; rewrite Hq0 in Hdm; lia).
  assert (r - (lo + stride) = (q - 1) * stride)%N as Hr by nia.
  apply IH.
  - nia.
  - rewrite Hr. apply N.Div0.mod_mul.
  - rewrite Hr, N.div_mul by exact Hs. lia.
Qed.

Lemma in_lower_range_points r e :
  GoUnicode.in_lower_range r e = true -> In r (entry_points e).
Proof.
  destruct e as [[[lo hi] stride] target]. unfold GoUnicode.in_lower_range.
  intros H. unfold entry_points.
  assert (lo <= r <= hi)%N as Hr by lia.
  apply range_points_In; [lia|lia|].
  assert ((r - lo) / stride <= (hi - lo) / stride)%N
    by (apply N.Div0.div_le_mono; lia).
  lia.
Qed.

Lemma mapped_rune r e :
  find (GoUnicode.in_lower_range r) GoUnicode.lower_ranges = Some e ->
  In r mapped_runes.
Proof.
  intros [He Hr]%find_some. unfold mapped_runes. apply in_flat_map.
  exists e. split; [exact He|]. now apply in_lower_range_points.
Qed.

Lemma written_rune_cases r :
  written_rune r = r \/ written_rune r = RuneError.
Proof. unfold written_rune. split_ifs; auto. Qed.

(** Lower-casing a rune a second time changes nothing. *)
Lemma lower_lower r :
  EncodeRune (GoUnicode.ToLower (written_rune (GoUnicode.ToLower r)))
  = EncodeRune (GoUnicode.ToLower r).
Proof.
  destruct (N.leb r 127) eqn:E.
  - assert ((GoUnicode.ToLower r <= 127)%N
            /\ GoUnicode.ToLower (GoUnicode.ToLower r) = GoUnicode.ToLower r)
      as [Hle Hid] by (unfold GoUnicode.ToLower; split_ifs; lia).
    assert (written_rune (GoUnicode.ToLower r) = GoUnicode.ToLower r) as ->
      by (unfold written_rune; split_ifs; [lia|reflexivity]).
    now rewrite Hid.
  - destruct (find (GoUnicode.in_lower_range r) GoUnicode.lower_ranges)
      as [e|] eqn:F.
    + apply mapped_rune in F.
      assert (forallb
                (fun r => N.eqb (GoUnicode.ToLower
                                   (written_rune (GoUnicode.ToLower r)))
                                (GoUnicode.ToLower r))
                mapped_runes = true) as Hall by (vm_compute; reflexivity).
      rewrite forallb_forall in Hall. apply Hall, N.eqb_eq in F.
      now rewrite F.
    + assert (GoUnicode.ToLower r = r) as Hr
        by (unfold GoUnicode.ToLower; now rewrite E, F).
      rewrite Hr. destruct (written_rune_cases r) as [Hw|Hw].
      * now rewrite Hw, Hr.
      * rewrite Hw. rewrite <- (encode_written r), Hw. reflexivity.
Qed.

(** A rune above ASCII stays there, but for the two that map to a letter
    ([U+0130] to [i], the Kelvin sign to [k]). *)
Lemma lower_high r :
  (128 <= r)%N ->
  (128 <= GoUnicode.ToLower r)%N
  \/ GoUnicode.ToLower r = 105%N \/ GoUnicode.ToLower r = 107%N.
Proof.
  intros Hr. unfold GoUnicode.ToLower.
  destruct (N.leb r 127) eqn:E; [lia|].
  destruct (find (GoUnicode.in_lower_range r) GoUnicode.lower_ranges)
    as [e|] eqn:F; [|now left].
  apply find_some in F as [Hin He].
  assert (forallb
            (fun e : N * N * N * N =>
               let '(lo, hi, _, target) := e in
               N.leb 128 target
               || (N.eqb lo hi && (N.eqb target 105 || N.eqb target 107)))
            GoUnicode.lower_ranges = true) as Hall by (vm_compute; reflexivity).
  rewrite forallb_forall in Hall. specialize (Hall e Hin).
  destruct e as [[[lo hi] stride] target].
  unfold GoUnicode.in_lower_range in He. lia.
Qed.

Lemma encode_ascii v :
  (v < 128)%N -> EncodeRune v = String (of_byte v) "".
Proof.
  intros Hv. unfold EncodeRune. fold (written_rune v).
  assert (written_rune v = v) as ->
    by (unfold written_rune; split_ifs; [lia|reflexivity]).
  split_ifs; first [reflexivity|lia].
Qed.

Lemma encode_high_bytes r :
  (128 <= r)%N ->
  all_chars (fun c => N.leb 128 (byte c)) (EncodeRune r) = true.
Proof.
  intros Hr. unfold EncodeRune. fold (written_rune r).
  assert (128 <= written_rune r)%N as Hv
    by (destruct (written_rune_cases r) as [-> | ->];
        [exact Hr|unfold RuneError; lia]).
  destruct (written_rune_range r) as [H1 _].
  set (v := written_rune r) in *. clearbody v.
  split_ifs; cbn [all_chars]; rewrite !byte_of_byte; nlia.
Qed.

(** A byte below [a] that a rune does not have is not in its lower-case
    form either. *)
Lemma encode_lower_avoids a r :
  (byte a < 97)%N -> ((r < 128)%N -> r <> byte a) ->
  count_char a (EncodeRune (GoUnicode.ToLower r)) = 0.
Proof.
  intros Ha Hr.
  assert (forall v, (v < 128)%N -> v <> byte a ->
                    count_char a (EncodeRune v) = 0) as Hone.
  { intros v Hv Hne. rewrite (encode_ascii v Hv). cbn.
    destruct (Ascii.eqb (of_byte v) a) eqn:E; [|reflexivity].
    apply Ascii.eqb_eq in E. apply (f_equal byte) in E.
    rewrite byte_of_byte in E; lia. }
  destruct (N.ltb r 128) eqn:E.
  - apply Hone; unfold GoUnicode.ToLower; split_ifs; lia.
  - destruct (lower_high r) as [H|[H|H]]; [lia| |rewrite H; apply Hone; lia..].
    apply count_char_absent.
    eapply all_chars_impl; [|exact (encode_high_bytes _ H)].
    intros c Hc. cbn beta in Hc. apply negb_true_iff, Ascii.eqb_neq.
    intros ->. lia.
Qed.

Lemma count_char_ToLower a s :
  (byte a < 97)%N -> count_char a s = 0 ->
  count_char a (GoStrings.ToLower s) = 0.
Proof.
  intros Ha. induction s as [|c s IH] using runes_ind; [reflexivity|].
  intros Hs. rewrite ToLower_cons, count_char_app.
  destruct (DecodeRuneInString (String c s)) as [r w] eqn:D.
  cbn [fst snd] in *.
  rewrite <- (take_drop w (String c s)), count_char_app in Hs.
  rewrite IH by lia. rewrite encode_lower_avoids; [reflexivity|exact Ha|].
  intros Hr. destruct (decode_high _ _ _ D) as [(c' & t & [= <- <-] & _ & -> & ->)|H];
    [|lia].
  cbn in Hs. destruct (Ascii.eqb c a) eqn:E; [discriminate Hs|].
  apply Ascii.eqb_neq in E. intros Hb. apply E.
  rewrite <- (of_byte_byte c), Hb. apply of_byte_byte.
Qed.

End LowerFacts.

(** ** Strings in lower case *)

Module LoweredFacts.
Import GoUtf8 GoUtf8Facts RuneFacts LowerFacts.

Lemma lowered_fixed s : lowered s -> GoStrings.ToLower s = s.
Proof.
  intros H. unfold GoStrings.ToLower. rewrite <- (runes_bytes s) at 2.
  f_equal. unfold lowered in H. induction H as [|u us Hu _ IH];
    [reflexivity|]. cbn [map]. now rewrite Hu, IH.
Qed.

Lemma lowered_ToLower s : lowered (GoStrings.ToLower s).
Proof.
  unfold lowered. rewrite runes_ToLower. apply Forall_map, Forall_forall.
  intros u _. cbn [fst snd]. apply lower_lower.
Qed.

Lemma lowered_nil : lowered "".
Proof. constructor. Qed.

Lemma lowered_split s c q :
  is_cont c = false -> lowered (s +:+ String c q) ->
  lowered s /\ lowered (String c q).
Proof.
  intros Hc. unfold lowered. rewrite (runes_before_start s c q Hc).
  apply Forall_app.
Qed.

Lemma lowered_tail c q :
  (byte c < 128)%N -> lowered (String c q) -> lowered q.
Proof.
  intros Hc. unfold lowered. rewrite (runes_ascii c q Hc).
  now intros [_ H]%Forall_cons.
Qed.

Lemma name_char_lowered c :
  is_name_char c = true ->
  (byte c < 128)%N
  /\ EncodeRune (GoUnicode.ToLower (byte c)) = String c "".
Proof.
  destruct c as [[] [] [] [] [] [] [] []]; vm_compute;
    first [discriminate | intros _; split; reflexivity].
Qed.

Lemma lowered_name s t :
  all_chars is_name_char s = true -> lowered t -> lowered (s +:+ t).
Proof.
  intros Hs Ht. induction s as [|c s IH]; [exact Ht|].
  cbn [all_chars] in Hs. apply andb_true_iff in Hs as [Hc Hs].
  destruct (name_char_lowered c Hc) as [Hb He].
  rewrite append_cons. unfold lowered. rewrite (runes_ascii c _ Hb).
  constructor; [exact He|exact (IH Hs)].
Qed.

Lemma sep_not_cont c : IsPathSeparator c = true -> is_cont c = false.
Proof. unfold IsPathSeparator. intros ->%Ascii.eqb_eq. reflexivity. Qed.

Lemma SplitHead_split s sep :
  exists rest,
    s = GoStrings.SplitHead s sep +:+ rest
    /\ (rest = "" \/ exists q, rest = String sep q).
Proof.
  induction s as [|c s (rest & Hs & Hrest)].
  - exists "". split; [reflexivity|now left].
  - cbn [GoStrings.SplitHead]. destruct (Ascii.eqb c sep) eqn:E.
    + apply Ascii.eqb_eq in E as ->. exists (String sep s).
      split; [reflexivity|right; eauto].
    + exists rest. split; [|exact Hrest]. rewrite append_cons. now rewrite <- Hs.
Qed.

Lemma lowered_SplitHead s sep :
  is_cont sep = false -> lowered s -> lowered (GoStrings.SplitHead s sep).
Proof.
  intros Hsep Hs. destruct (SplitHead_split s sep) as (rest & E & [-> | (q & ->)]).
  - rewrite append_nil_r in E. now rewrite <- E.
  - rewrite E in Hs. exact (proj1 (lowered_split _ _ _ Hsep Hs)).
Qed.

Lemma TrimRightFunc_split f s :
  exists rest,
    s = GoStrings.TrimRightFunc f s +:+ rest /\ all_chars f rest = true.
Proof.
  induction s as [|c s (rest & Hs & Hrest)].
  - exists "". split; reflexivity.
  - cbn [GoStrings.TrimRightFunc]. cbn zeta.
    destruct (f c) eqn:Hc; cbn [andb].
    + destruct (GoStrings.TrimRightFunc f s) as [|d r] eqn:E; cbn [is_empty].
      * exists (String c rest). rewrite append_nil in Hs |- *.
        split; [now rewrite <- Hs|]. cbn. now rewrite Hc.
      * exists rest. split; [|exact Hrest]. rewrite append_cons.
        now rewrite <- Hs.
    + exists rest. split; [|exact Hrest]. rewrite append_cons.
      now rewrite <- Hs.
Qed.

Lemma after_last_sep_split s r :
  GoFilepath.after_last_sep s = Some r ->
  exists d c, s = d +:+ String c r /\ IsPathSeparator c = true.
Proof.
  revert r. induction s as [|c s IH]; intros r; cbn; [discriminate|].
  destruct (GoFilepath.after_last_sep s) as [r'|].
  - intros [= <-]. destruct (IH r' eq_refl) as (d & c' & -> & Hc).
    exists (String c d), c'. split; [reflexivity|exact Hc].
  - destruct (IsPathSeparator c) eqn:Hc; [|discriminate].
    intros [= <-]. exists "", c. split; [reflexivity|exact Hc].
Qed.

Lemma sep_ascii c : IsPathSeparator c = true -> (byte c < 128)%N.
Proof. unfold IsPathSeparator. intros ->%Ascii.eqb_eq. reflexivity. Qed.

Lemma lowered_Base path : lowered path -> lowered (GoFilepath.Base path).
Proof.
  intros Hp. unfold GoFilepath.Base.
  destruct (is_empty path); [repeat constructor|].
  assert (lowered (GoFilepath.strip_trailing_sep path)) as Hs.
  { unfold GoFilepath.strip_trailing_sep.
    destruct (TrimRightFunc_split IsPathSeparator path) as (rest & E & Hrest).
    destruct rest as [|c q]; [rewrite append_nil_r in E; now rewrite <- E|].
    cbn [all_chars] in Hrest. apply andb_true_iff in Hrest as [Hc _].
    rewrite E in Hp. exact (proj1 (lowered_split _ _ _ (sep_not_cont c Hc) Hp)). }
  destruct (GoFilepath.after_last_sep (GoFilepath.strip_trailing_sep path))
    as [r|] eqn:E.
  - destruct (is_empty r); [repeat constructor|].
    apply after_last_sep_split in E as (d & c & E & Hc). rewrite E in Hs.
    apply (lowered_tail c r (sep_ascii c Hc)).
    exact (proj2 (lowered_split _ _ _ (sep_not_cont c Hc) Hs)).
  - destruct (is_empty (GoFilepath.strip_trailing_sep path));
      [repeat constructor|exact Hs].
Qed.

Lemma scan_ext_split s e :
  GoFilepath.scan_ext s = GoFilepath.ExtFound e ->
  exists pre e', s = pre +:+ e /\ e = String dot e'.
Proof.
  revert e. induction s as [|c s IH]; intros e; cbn; [discriminate|].
  destruct (GoFilepath.scan_ext s) eqn:E; try discriminate.
  - intros [= <-]. destruct (IH ext eq_refl) as (pre & e' & -> & He).
    exists (String c pre), e'. split; [reflexivity|exact He].
  - destruct (IsPathSeparator c); [discriminate|].
    destruct (Ascii.eqb c dot) eqn:Hc; [|discriminate].
    intros [= <-]. apply Ascii.eqb_eq in Hc as ->.
    exists "", s. split; reflexivity.
Qed.

Lemma lowered_Ext path : lowered path -> lowered (GoFilepath.Ext path).
Proof.
  intros Hp. unfold GoFilepath.Ext.
  destruct (GoFilepath.scan_ext path) eqn:E; try apply lowered_nil.
  apply scan_ext_split in E as (pre & e' & E & ->). rewrite E in Hp.
  exact (proj2 (lowered_split pre dot e' eq_refl Hp)).
Qed.

End LoweredFacts.

(** ** More on paths *)

Module GoFilepathMore.
Import GoFilepath.

Lemma TrimRightFunc_keep f x n :
  all_chars (fun c => negb (f c)) n = true -> n <> "" ->
  GoStrings.TrimRightFunc f (x +:+ n) = x +:+ n.
Proof.
  intros Hn Hne. induction x as [|c x IH].
  - rewrite append_nil. clear Hne.
    induction n as [|c n IH]; [reflexivity|].
    cbn in Hn |- *. apply andb_true_iff in Hn as [Hc Hn].
    apply negb_true_iff in Hc. rewrite Hc, (IH Hn). reflexivity.
  - rewrite append_cons. cbn [GoStrings.TrimRightFunc]. cbn zeta. rewrite IH.
    destruct (x +:+ n) eqn:E.
    + destruct x; [rewrite append_nil in E; congruence|discriminate E].
    + now rewrite andb_false_r.
Qed.

Lemma after_last_sep_none n :
  count_char slash n = 0 -> after_last_sep n = None.
Proof.
  induction n as [|c n IH]; cbn; [reflexivity|].
  unfold IsPathSeparator. destruct (Ascii.eqb c slash); cbn; [discriminate|].
  intros H. now rewrite (IH H).
Qed.

Lemma after_last_sep_app d n :
  count_char slash n = 0 -> after_last_sep (d +:+ String slash n) = Some n.
Proof.
  intros Hn. induction d as [|c d IH].
  - rewrite append_nil. cbn. now rewrite (after_last_sep_none n Hn).
  - rewrite append_cons. cbn. now rewrite IH.
Qed.

(** The last element of a path that ends in a non-empty element. *)
Lemma Base_last_element d n :
  n <> "" -> count_char slash n = 0 ->
  Base (d +:+ String slash n) = n /\ Base n = n.
Proof.
  intros Hne Hn.
  pose proof (count_char_zero slash n Hn) as Hall.
  assert (forall x, strip_trailing_sep (x +:+ n) = x +:+ n) as Hstrip.
  { intros x. apply TrimRightFunc_keep; assumption. }
  split.
  - unfold Base. destruct (d +:+ String slash n) eqn:E.
    { destruct d; [rewrite append_nil in E|rewrite append_cons in E];
        discriminate E. }
    cbn [is_empty]. rewrite <- E. clear E.
    replace (d +:+ String slash n) with ((d +:+ "/") +:+ n).
    2:{ clear. induction d as [|c d IH]; [reflexivity|].
        rewrite !append_cons. now rewrite IH. }
    rewrite Hstrip.
    replace ((d +:+ "/") +:+ n) with (d +:+ String slash n).
    2:{ clear. induction d as [|c d IH]; [reflexivity|].
        rewrite !append_cons. now rewrite IH. }
    rewrite (after_last_sep_app d n Hn).
    destruct n; [congruence|reflexivity].
  - unfold Base. destruct n as [|c n]; [congruence|]. cbn [is_empty].
    pose proof (Hstrip "") as H0. rewrite append_nil in H0. rewrite H0.
    rewrite (after_last_sep_none _ Hn). reflexivity.
Qed.

Lemma scan_ext_open_no_sep s :
  scan_ext s = ExtOpen ->
  all_chars (fun c => negb (IsPathSeparator c)) s = true.
Proof.
  induction s as [|c s IH]; cbn; [reflexivity|].
  destruct (scan_ext s); try discriminate.
  destruct (IsPathSeparator c); [discriminate|].
  destruct (Ascii.eqb c dot); [discriminate|].
  intros _. cbn. auto.
Qed.

Lemma scan_ext_found_open s e :
  scan_ext s = ExtFound e ->
  exists e', e = String dot e' /\ scan_ext e' = ExtOpen.
Proof.
  induction s as [|c s IH]; cbn; [discriminate|].
  destruct (scan_ext s) eqn:E; try discriminate.
  - intros [= <-]. auto.
  - destruct (IsPathSeparator c); [discriminate|].
    destruct (Ascii.eqb c dot) eqn:Hc; [|discriminate].
    intros [= <-]. apply Ascii.eqb_eq in Hc as ->. eauto.
Qed.

Lemma Ext_no_sep path : count_char slash (Ext path) = 0.
Proof.
  unfold Ext. destruct (scan_ext path) eqn:E; try reflexivity.
  apply scan_ext_found_open in E as (e' & -> & He).
  cbn. apply count_char_absent.
  exact (scan_ext_open_no_sep e' He).
Qed.

(** Text over [[a-z0-9_]] in front of a path does not change what the
    scan for the extension finds. *)
Lemma scan_ext_name_app s t :
  all_chars is_name_char s = true -> scan_ext (s +:+ t) = scan_ext t.
Proof.
  induction s as [|c s IH]; [reflexivity|].
  cbn [all_chars]. intros [Hc Hs]%andb_true_iff.
  rewrite append_cons. cbn [scan_ext]. rewrite (IH Hs).
  destruct (scan_ext t); try reflexivity.
  now rewrite (name_char_not_sep _ Hc), (name_char_not_dot _ Hc).
Qed.

Lemma Ext_idem path : Ext (Ext path) = Ext path.
Proof.
  unfold Ext at 2 3. destruct (scan_ext path) eqn:E; try reflexivity.
  apply scan_ext_found_open in E as (e' & -> & He).
  unfold Ext. cbn. now rewrite He.
Qed.

Lemma split_sep_nonempty s : split_sep s <> [].
Proof.
  destruct s as [|c s]; cbn; [discriminate|].
  destruct (IsPathSeparator c); [discriminate|].
  destruct (split_sep s); discriminate.
Qed.

(** A separator cuts the list of elements in two. *)
Lemma split_sep_app a b :
  split_sep (a +:+ String slash b) = split_sep a ++ split_sep b.
Proof.
  induction a as [|c a IH]; [reflexivity|].
  rewrite append_cons. cbn [split_sep]. rewrite IH.
  destruct (IsPathSeparator c); [reflexivity|].
  pose proof (split_sep_nonempty a) as Hne.
  destruct (split_sep a) as [|h t]; [congruence|reflexivity].
Qed.

(** A last element [.] is dropped by [Clean]. *)
Lemma Clean_dot_element dir :
  dir <> "" -> Clean (dir +:+ "/" +:+ ".") = Clean dir.
Proof.
  destruct dir as [|c d]; [congruence|]. intros _.
  change ("/" +:+ ".") with (String slash ".").
  unfold Clean. rewrite split_sep_app, fold_left_app.
  rewrite append_cons. cbn [is_empty starts_with]. reflexivity.
Qed.

End GoFilepathMore.

(** ** More on the sanitizer *)

Lemma urlToFilename_dots rawURL : count_char dot (urlToFilename rawURL) <= 1.
Proof.
  rewrite urlToFilename_split, count_char_app.
  set (lower := GoStrings.ToLower rawURL).
  assert (count_char dot (sanitized_stem lower) = 0) as ->.
  { apply count_char_absent.
    eapply all_chars_impl; [|apply sanitized_stem_name].
    intros c Hc. now rewrite (name_char_not_dot _ Hc). }
  unfold captured_ext, getFileExtension.
  destruct (GoFilepathFacts.Ext_shape
              (getFilename (GoStrings.SplitHead lower "?")))
    as [-> | (e & -> & He)]; cbn; [lia|].
  rewrite He. lia.
Qed.

Lemma urlToFilename_lowered rawURL : lowered (urlToFilename rawURL).
Proof.
  rewrite urlToFilename_split.
  apply LoweredFacts.lowered_name; [apply sanitized_stem_name|].
  unfold captured_ext, getFileExtension, getFilename.
  apply LoweredFacts.lowered_Ext, LoweredFacts.lowered_Base,
    LoweredFacts.lowered_SplitHead; [reflexivity|].
  apply LoweredFacts.lowered_ToLower.
Qed.

(** The basename the sanitizer works on, for a URL that ends in a plain
    element, and for that element alone. *)
Lemma basename_of_last_element prefix name :
  count_char "?" prefix = 0 ->
  count_char "?" name = 0 ->
  count_char slash name = 0 ->
  name <> "" ->
  getFilename
    (GoStrings.SplitHead (GoStrings.ToLower (prefix +:+ "/" +:+ name)) "?")
  = GoStrings.ToLower name
  /\ getFilename (GoStrings.SplitHead (GoStrings.ToLower name) "?")
     = GoStrings.ToLower name.
Proof.
  intros Hqp Hqn Hsn Hne.
  assert (GoStrings.ToLower (prefix +:+ "/" +:+ name)
          = GoStrings.ToLower prefix
            +:+ String slash (GoStrings.ToLower name)) as Hlower.
  { change ("/" +:+ name) with (String "/" name).
    rewrite (LowerFacts.ToLower_app_start prefix "/" name eq_refl).
    now rewrite (LowerFacts.ToLower_ascii "/" name) by reflexivity. }
  pose proof (LowerFacts.count_char_ToLower "?" prefix eq_refl Hqp) as Hqp'.
  pose proof (LowerFacts.count_char_ToLower "?" name eq_refl Hqn) as Hqn'.
  pose proof (LowerFacts.count_char_ToLower slash name eq_refl Hsn) as Hsn'.
  pose proof (LowerFacts.ToLower_nonempty name Hne) as Hne'.
  split.
  - rewrite Hlower. rewrite SplitHead_absent.
    2:{ rewrite count_char_app. cbn. rewrite Hqp', Hqn'. reflexivity. }
    now apply GoFilepathMore.Base_last_element.
  - rewrite SplitHead_absent by exact Hqn'.
    now apply (GoFilepathMore.Base_last_element "").
Qed.

(** X1.  The query string does not reach the name: whatever follows a [?]
    appended to a URL, the sanitized name is that of the URL. *)
Theorem urlToFilename_ignores_query (rawURL query : string) :
  urlToFilename (rawURL +:+ "?" +:+ query) = urlToFilename rawURL.
Proof.
  unfold urlToFilename. cbn zeta.
  assert (GoStrings.SplitHead
            (GoStrings.ToLower (rawURL +:+ "?" +:+ query)) "?"
          = GoStrings.SplitHead (GoStrings.ToLower rawURL) "?") as ->.
  { change ("?" +:+ query) with (String "?" query).
    rewrite (LowerFacts.ToLower_app_start rawURL "?" query eq_refl).
    rewrite (LowerFacts.ToLower_ascii "?" query) by reflexivity.
    change (GoUtf8.EncodeRune (GoUnicode.ToLower (GoUtf8.byte "?")))
      with "?".
    apply SplitHead_app. }
  reflexivity.
Qed.

(** X2.  Only the last path element counts: a URL that ends in [/name],
    where [name] is not empty and has neither [/] nor [?] and nothing before
    it has a [?], gets the sanitized name of [name] alone; so the same file
    name under two hosts or directories gives one local name. *)
Theorem urlToFilename_only_last_element (prefix name : string) :
  count_char "?" prefix = 0 ->
  count_char "?" name = 0 ->
  count_char slash name = 0 ->
  name <> "" ->
  urlToFilename (prefix +:+ "/" +:+ name) = urlToFilename name.
Proof.
  intros Hqp Hqn Hsn Hne. unfold urlToFilename. cbn zeta.
  destruct (basename_of_last_element prefix name Hqp Hqn Hsn Hne)
    as [-> ->].
  reflexivity.
Qed.

Lemma urlToFilename_only_last_element_witness :
  urlToFilename ("https://a.example.com/docs/v2" +:+ "/" +:+ "Manual.PDF")
  = urlToFilename "Manual.PDF".
Proof.
  apply (urlToFilename_only_last_element
           "https://a.example.com/docs/v2" "Manual.PDF");
    [reflexivity|reflexivity|reflexivity|discriminate].
Defined.

(** X3.  The sanitized name has no path separator and is never [..]: joined
    to the output directory it cannot name a file in another directory. *)
Theorem urlToFilename_no_separator (rawURL : string) :
  count_char slash (urlToFilename rawURL) = 0
  /\ urlToFilename rawURL <> "..".
Proof.
  split.
  - rewrite urlToFilename_split, count_char_app.
    assert (count_char slash (sanitized_stem (GoStrings.ToLower rawURL)) = 0)
      as ->.
    { apply count_char_absent.
      eapply all_chars_impl; [|apply sanitized_stem_name].
      intros c Hc. pose proof (name_char_not_sep _ Hc) as H.
      unfold IsPathSeparator in H. now rewrite H. }
    unfold captured_ext, getFileExtension.
    now rewrite GoFilepathMore.Ext_no_sep.
  - intros H. pose proof (urlToFilename_dots rawURL) as Hd.
    rewrite H in Hd. cbn in Hd. lia.
Qed.

(** X4.  The sanitized name is already in lower case, so the
    [strings.ToLower] that [downloadPDF] applies to it changes nothing; and
    lower-casing the URL first gives the same name. *)
Theorem urlToFilename_lower_case (rawURL : string) :
  GoStrings.ToLower (urlToFilename rawURL) = urlToFilename rawURL
  /\ urlToFilename (GoStrings.ToLower rawURL) = urlToFilename rawURL.
Proof.
  split.
  - apply LoweredFacts.lowered_fixed, urlToFilename_lowered.
  - unfold urlToFilename. cbn zeta.
    now rewrite (LoweredFacts.lowered_fixed _
                   (LoweredFacts.lowered_ToLower rawURL)).
Qed.

(** X5.  The extension is preserved: the extension of the sanitized name is
    the extension of the lower-cased last path element of the URL, query
    removed. *)
Theorem urlToFilename_keeps_extension (rawURL : string) :
  getFileExtension (urlToFilename rawURL)
  = getFileExtension
      (getFilename
         (GoStrings.SplitHead (GoStrings.ToLower rawURL) "?")).
Proof.
  rewrite urlToFilename_split. unfold getFileExtension at 1.
  unfold GoFilepath.Ext.
  rewrite (GoFilepathMore.scan_ext_name_app _ _
             (sanitized_stem_name (GoStrings.ToLower rawURL))).
  fold (GoFilepath.Ext (captured_ext (GoStrings.ToLower rawURL))).
  unfold captured_ext, getFileExtension.
  apply GoFilepathMore.Ext_idem.
Qed.

(** ** More on de-duplication *)

Lemma first_occurrences_sublist (l : list string) :
  first_occurrences l `sublist_of` l.
Proof.
  induction l as [|x l IH]; cbn; [constructor|].
  apply sublist_skip. etransitivity; [apply sublist_filter|exact IH].
Qed.

Lemma first_occurrences_app (l1 l2 : list string) :
  first_occurrences (l1 ++ l2)
  = first_occurrences l1 ++ filter (λ y, y ∉ l1) (first_occurrences l2).
Proof.
  induction l1 as [|x l1 IH]; cbn [app first_occurrences].
  - symmetry. apply filter_all. intros y _ H. inversion H.
  - rewrite IH, filter_app. cbn [app]. f_equal. f_equal.
    rewrite list_filter_filter. apply list_filter_iff. intros y.
    rewrite elem_of_cons. tauto.
Qed.

(** X6.  A slice is returned unchanged exactly when it has no repeated
    element. *)
Theorem removeDuplicatesFromSlice_fixed_iff_NoDup (slice : list string) :
  removeDuplicatesFromSlice slice = slice <-> NoDup slice.
Proof.
  rewrite removeDuplicates_first_occurrences. split.
  - intros <-. apply first_occurrences_NoDup.
  - apply first_occurrences_fixed.
Qed.

(** X7.  The result is a subsequence of the input: elements are only
    dropped, never added or reordered, so the result is never longer than
    the input. *)
Theorem removeDuplicatesFromSlice_subsequence (slice : list string) :
  removeDuplicatesFromSlice slice `sublist_of` slice
  /\ length (removeDuplicatesFromSlice slice) <= length slice.
Proof.
  rewrite removeDuplicates_first_occurrences.
  pose proof (first_occurrences_sublist slice) as H.
  split; [exact H|]. now apply sublist_length.
Qed.

(** X8.  De-duplicating a concatenation: the result for the first part,
    followed by the result for the second part without the elements of the
    first. *)
Theorem removeDuplicatesFromSlice_app (slice1 slice2 : list string) :
  removeDuplicatesFromSlice (slice1 ++ slice2)
  = removeDuplicatesFromSlice slice1
    ++ filter (λ y, y ∉ slice1) (removeDuplicatesFromSlice slice2).
Proof.
  rewrite !removeDuplicates_first_occurrences. apply first_occurrences_app.
Qed.

(** ** More on the extractor *)

(** X9.  Every link [extractPDFUrls] returns has no white space at either
    end (trimming it again changes nothing) and mentions [.pdf] whatever the
    case. *)
Theorem extractPDFUrls_links_clean
  (Parse : string -> Node + string) (htmlContent link : string) :
  In link (extractPDFUrls Parse htmlContent) ->
  GoStrings.TrimSpace link = link /\ mentions_pdf link = true.
Proof.
  unfold extractPDFUrls. destruct (Parse htmlContent) as [tree|err].
  2:{ intros []. }
  rewrite exploreHTML_spec. cbn [app]. unfold trimmed_pdf_links.
  intros (v & <- & Hv)%in_map_iff. apply filter_In in Hv as [_ Hm].
  split.
  - apply TrimFacts.TrimSpace_idem.
  - now rewrite TrimFacts.mentions_pdf_TrimSpace.
Qed.

Lemma extractPDFUrls_links_clean_witness :
  GoStrings.TrimSpace "/three.pdf" = "/three.pdf"
  /\ mentions_pdf "/three.pdf" = true.
Proof.
  apply (extractPDFUrls_links_clean (fun _ => inl sample_page) "<html>").
  vm_compute. right. right. left. reflexivity.
Defined.

(** X10.  The traversal is compositional: started with links already
    collected it only appends to them, and the links of a node are the links
    of its own href attributes (when it is an anchor) followed by the links
    of its children, first child first. *)
Theorem exploreHTML_compositional
  (t : NodeType) (data : string) (attr : list Attribute)
  (children : list Node) (pdfLinks : list string) :
  exploreHTML (mkNode t data attr children) pdfLinks
  = pdfLinks ++ exploreHTML (mkNode t data attr children) []
  /\ exploreHTML (mkNode t data attr children) []
     = (if is_anchor t data then fold_left scan_attribute attr [] else [])
       ++ flat_map (fun childNode => exploreHTML childNode []) children.
Proof.
  split.
  - now rewrite (exploreHTML_spec _ pdfLinks), (exploreHTML_spec _ []).
  - rewrite exploreHTML_spec, document_hrefs_node, trimmed_pdf_links_app.
    cbn [app]. f_equal.
    + unfold anchor_hrefs. cbn [node_is_anchor node_attr].
      destruct (is_anchor t data); [|reflexivity].
      now rewrite scan_attributes_spec.
    + induction children as [|c cs IH]; [reflexivity|].
      cbn [flat_map]. rewrite trimmed_pdf_links_app, IH.
      now rewrite (exploreHTML_spec c []).
Qed.

(** ** More on the fetcher *)

(** Split a goal about [fetch_outcome] into one goal per way out of the
    function, with the tests that lead there as hypotheses. *)
Ltac fetch_response env r dest :=
  destruct (negb (StatusCode r =? StatusOK)%Z) eqn:Hstatus;
  [ | destruct (negb (acceptable_content_type (ContentType r))) eqn:Hct;
      [ | destruct (BodyErr r) as [e|] eqn:Herr;
          [ | destruct (String.length (Body r)) as [|k] eqn:Hlen;
              cbn [Nat.eqb];
              [ | cbv iota beta;
                  try (destruct (create_refused env dest) as [e|] eqn:Hrefuse;
                       [ | destruct (write_fault env dest (S k))
                             as [[j e]|] eqn:Hfault ]) ] ] ] ].

Ltac fetch_leaves env pdfURL outputDirectory w :=
  rewrite ?downloadPDF_run; unfold fetch_outcome; cbv zeta;
  let dest := constr:(destination pdfURL outputDirectory) in
  destruct (fs w !! dest) as [[c|]|] eqn:Hdest;
  [ | destruct (http_get env pdfURL) as [r|e] eqn:Hget;
      [ fetch_response env r dest | ]
    | destruct (http_get env pdfURL) as [r|e] eqn:Hget;
      [ fetch_response env r dest | ] ].

Lemma downloadPDF_skip env pdfURL outputDirectory w content :
  fs w !! destination pdfURL outputDirectory = Some (FsFile content) ->
  downloadPDF env pdfURL outputDirectory w
  = (false, after w [EvLog (LogFileExists (destination pdfURL outputDirectory))]).
Proof.
  intros H. rewrite downloadPDF_run. unfold fetch_outcome. now rewrite H.
Qed.

Lemma new_events_after w b evs : new_events w (b, after w evs) = evs.
Proof. unfold new_events, after. cbn. apply drop_app_length. Qed.

Lemma new_events_stored w b path content evs :
  new_events w (b, stored w path content evs) = evs.
Proof. unfold new_events, stored. cbn. apply drop_app_length. Qed.

(** X11.  [downloadPDF] touches nothing but its destination: every other
    path of the file store, file or directory, is after the call what it
    was before. *)
Theorem downloadPDF_frame
  (env : Env) (pdfURL outputDirectory : string) (w : World) (path : string) :
  path <> GoFilepath.Join outputDirectory
            (GoStrings.ToLower (urlToFilename pdfURL)) ->
  fs (snd (downloadPDF env pdfURL outputDirectory w)) !! path = fs w !! path.
Proof.
  fold (destination pdfURL outputDirectory). intros Hne.
  destruct (downloadPDF_store env pdfURL outputDirectory w)
    as [-> | (_ & c & ->)]; [reflexivity|].
  now rewrite lookup_insert_ne.
Qed.

Lemma downloadPDF_frame_witness :
  fs (snd (downloadPDF (serving "application/pdf" "%PDF-1.7 body")
             "https://example.com/docs/Guide.pdf" "PDFs/" store_with_manual))
    !! "PDFs/manual.pdf"
  = Some (FsFile "old").
Proof.
  rewrite (downloadPDF_frame (serving "application/pdf" "%PDF-1.7 body")
             "https://example.com/docs/Guide.pdf" "PDFs/" store_with_manual
             "PDFs/manual.pdf").
  - vm_compute. reflexivity.
  - vm_compute. discriminate.
Defined.

(** X12.  [downloadPDF] returns [true] exactly when nothing is at the
    destination, the GET is answered with status 200 and an accepted content
    type, the body is read to its end without error and is not empty, the
    file can be created and the write is complete; the destination then
    holds the body, byte for byte. *)
Theorem downloadPDF_success
  (env : Env) (pdfURL outputDirectory : string) (w : World) :
  let dest := destination pdfURL outputDirectory in
  let run := downloadPDF env pdfURL outputDirectory w in
  (fst run = true <->
   exists r,
     fs w !! dest = None
     /\ http_get env pdfURL = inl r
     /\ StatusCode r = 200%Z
     /\ acceptable_content_type (ContentType r) = true
     /\ BodyErr r = None
     /\ Body r <> ""
     /\ create_refused env dest = None
     /\ write_fault env dest (String.length (Body r)) = None)
  /\ (fst run = true ->
      exists r,
        http_get env pdfURL = inl r
        /\ fs (snd run) = <[dest := FsFile (Body r)]> (fs w)).
Proof.
  cbn zeta. split; [split|].
  - fetch_leaves env pdfURL outputDirectory w; cbn [fst];
      try discriminate.
    intros _. exists r. apply negb_false_iff in Hstatus, Hct.
    apply Z.eqb_eq in Hstatus. repeat split; try assumption; try reflexivity.
    + intros Hb. rewrite Hb in Hlen. discriminate Hlen.
    + now rewrite Hlen.
  - intros (r & Hdest & Hget & Hstatus & Hct & Herr & Hbody & Hrefuse & Hfault).
    rewrite downloadPDF_run. unfold fetch_outcome. cbv zeta.
    rewrite Hdest, Hget, Hstatus, Hct, Herr, Hrefuse, Hfault.
    destruct (Body r) as [|c b]; [congruence|]. reflexivity.
  - fetch_leaves env pdfURL outputDirectory w; cbn [fst];
      try discriminate.
    intros _. exists r. split; reflexivity.
Qed.

Lemma downloadPDF_success_witness :
  exists r,
    http_get (serving "application/pdf" "%PDF-1.7 body")
      "https://example.com/docs/Manual.PDF" = inl r
    /\ fs (snd (downloadPDF (serving "application/pdf" "%PDF-1.7 body")
                  "https://example.com/docs/Manual.PDF" "PDFs/" empty_store))
       = <[destination "https://example.com/docs/Manual.PDF" "PDFs/"
             := FsFile (Body r)]> (fs empty_store).
Proof.
  apply (proj2 (downloadPDF_success
                  (serving "application/pdf" "%PDF-1.7 body")
                  "https://example.com/docs/Manual.PDF" "PDFs/" empty_store)).
  vm_compute. reflexivity.
Defined.

(** X13.  Once a call has returned [true] or has changed the file store,
    the next call for the same URL, or for any URL with the same
    destination, is a skip whatever the network answers: no request, no
    write, result [false].  Two URLs with one sanitized name are not told
    apart. *)
Theorem downloadPDF_then_skips
  (env env' : Env) (pdfURL pdfURL' outputDirectory : string) (w : World) :
  let run := downloadPDF env pdfURL outputDirectory w in
  destination pdfURL' outputDirectory = destination pdfURL outputDirectory ->
  fst run = true \/ fs (snd run) <> fs w ->
  downloadPDF env' pdfURL' outputDirectory (snd run)
  = (false,
     {| fs := fs (snd run);
        trace := trace (snd run)
                 ++ [EvLog (LogFileExists
                              (destination pdfURL outputDirectory))] |}).
Proof.
  cbn zeta. intros Hsame Hgo.
  assert (exists content,
             fs (snd (downloadPDF env pdfURL outputDirectory w))
               !! destination pdfURL outputDirectory
             = Some (FsFile content)) as [content Hc].
  { revert Hgo.
    fetch_leaves env pdfURL outputDirectory w; cbn [fst snd after fs];
      try (intros [Hf | Hf]; [discriminate Hf|now destruct Hf]);
      intros _; eexists; unfold stored; cbn [fs]; apply lookup_insert_eq. }
  rewrite <- Hsame in Hc |- *.
  now rewrite (downloadPDF_skip env' _ _ _ content Hc).
Qed.

Lemma downloadPDF_then_skips_witness :
  downloadPDF (serving "application/pdf" "%PDF-1.7 other")
    "https://other.example.org/x/manual.pdf?v=9" "PDFs/"
    (snd (downloadPDF (serving "application/pdf" "%PDF-1.7 body")
            "https://example.com/docs/Manual.PDF" "PDFs/" empty_store))
  = (false,
     {| fs := fs (snd (downloadPDF (serving "application/pdf" "%PDF-1.7 body")
                         "https://example.com/docs/Manual.PDF" "PDFs/"
                         empty_store));
        trace := trace (snd (downloadPDF
                               (serving "application/pdf" "%PDF-1.7 body")
                               "https://example.com/docs/Manual.PDF" "PDFs/"
                               empty_store))
                 ++ [EvLog (LogFileExists
                              (destination
                                 "https://example.com/docs/Manual.PDF"
                                 "PDFs/"))] |}).
Proof.
  apply (downloadPDF_then_skips
           (serving "application/pdf" "%PDF-1.7 body")
           (serving "application/pdf" "%PDF-1.7 other")
           "https://example.com/docs/Manual.PDF"
           "https://other.example.org/x/manual.pdf?v=9" "PDFs/" empty_store).
  - vm_compute. reflexivity.
  - left. vm_compute. reflexivity.
Defined.

(** X14.  A write that stops early is not cleaned up: the call returns
    [false] after logging the write failure, and the destination keeps the
    file that [os.Create] made, with the bytes that were written. *)
Theorem downloadPDF_write_failure_leaves_file
  (env : Env) (pdfURL outputDirectory : string) (w : World)
  (r : Response) (k : nat) (writeError : string) :
  let dest := destination pdfURL outputDirectory in
  fs w !! dest = None ->
  http_get env pdfURL = inl r ->
  StatusCode r = 200%Z ->
  acceptable_content_type (ContentType r) = true ->
  BodyErr r = None ->
  Body r <> "" ->
  create_refused env dest = None ->
  write_fault env dest (String.length (Body r)) = Some (k, writeError) ->
  downloadPDF env pdfURL outputDirectory w
  = (false,
     {| fs := <[dest := FsFile (String.substring 0 k (Body r))]> (fs w);
        trace := trace w ++
          [EvHttpGet pdfURL; EvBodyRead (String.length (Body r)) true;
           EvCreate dest true;
           EvWrite dest (min k (String.length (Body r))) false;
           EvLog (LogWriteFailed pdfURL writeError);
           EvFileClose dest; EvBodyClose] |}).
Proof.
  cbn zeta. intros Hdest Hget Hstatus Hct Herr Hbody Hrefuse Hfault.
  rewrite downloadPDF_run. unfold fetch_outcome. cbv zeta.
  rewrite Hdest, Hget, Hstatus, Hct, Herr, Hrefuse, Hfault.
  destruct (Body r) as [|c b]; [congruence|]. reflexivity.
Qed.

Lemma downloadPDF_write_failure_leaves_file_witness :
  downloadPDF (serving_short_write "application/pdf" "%PDF-1.7 body" 4)
    "https://example.com/docs/Manual.PDF" "PDFs/" empty_store
  = (false,
     {| fs := <["PDFs/manual.pdf" := FsFile "%PDF"]> (fs empty_store);
        trace :=
          [EvHttpGet "https://example.com/docs/Manual.PDF";
           EvBodyRead 13 true;
           EvCreate "PDFs/manual.pdf" true;
           EvWrite "PDFs/manual.pdf" 4 false;
           EvLog (LogWriteFailed "https://example.com/docs/Manual.PDF"
                    "no space left on device");
           EvFileClose "PDFs/manual.pdf"; EvBodyClose] |}).
Proof.
  apply (downloadPDF_write_failure_leaves_file
           (serving_short_write "application/pdf" "%PDF-1.7 body" 4)
           "https://example.com/docs/Manual.PDF" "PDFs/" empty_store
           (mkResponse 200 "200 OK" "application/pdf" "%PDF-1.7 body" None)
           4 "no space left on device");
    try reflexivity.
  discriminate.
Defined.

(** X15.  Every call logs exactly one message, and it returns [true]
    exactly when that message is the success message. *)
Theorem downloadPDF_logs_once
  (env : Env) (pdfURL outputDirectory : string) (w : World) :
  let run := downloadPDF env pdfURL outputDirectory w in
  count_events is_log (new_events w run) = 1
  /\ (fst run = true <->
      exists n, In (EvLog (LogSuccess n pdfURL
                             (destination pdfURL outputDirectory)))
                   (new_events w run)).
Proof.
  cbn zeta.
  fetch_leaves env pdfURL outputDirectory w;
    rewrite ?new_events_after, ?new_events_stored; cbn [fst];
    (split; [reflexivity|]);
    (split;
     [ first [ discriminate | intros _; eexists; cbn; tauto ]
     | first [ reflexivity
             | intros [n Hin]; cbn in Hin;
               repeat (destruct Hin as [Hin|Hin]; try discriminate Hin);
               contradiction ] ]).
Qed.

(** X16.  What a call opens it closes: the file is closed once for every
    successful [os.Create], the response body once for every GET that got a
    response; there is at most one GET, and it is for the URL as given. *)
Theorem downloadPDF_closes_what_it_opens
  (env : Env) (pdfURL outputDirectory : string) (w : World) :
  let evs := new_events w (downloadPDF env pdfURL outputDirectory w) in
  count_events is_file_close evs = count_events is_file_open evs
  /\ count_events is_body_close evs
     = match http_get env pdfURL with
       | inl _ => count_events is_get evs
       | inr _ => 0
       end
  /\ count_events is_get evs <= 1
  /\ forall url, In (EvHttpGet url) evs -> url = pdfURL.
Proof.
  cbn zeta.
  fetch_leaves env pdfURL outputDirectory w;
    rewrite ?new_events_after, ?new_events_stored;
    (split; [reflexivity|]);
    (split; [first [ reflexivity
                   | destruct (http_get env pdfURL); reflexivity ]|]);
    (split; [cbn; lia|]);
    intros url Hin; cbn in Hin;
    repeat (destruct Hin as [Hin|Hin]; try discriminate Hin);
    first [ now injection Hin | contradiction ].
Qed.

(** X17.  The status gate: a response with a status other than 200 ends
    the call with the status logged and the body closed; the body is not
    read and no file is created, whatever the content type and the body. *)
Theorem downloadPDF_status_gate
  (env : Env) (pdfURL outputDirectory : string) (w : World) (r : Response) :
  (forall c, fs w !! destination pdfURL outputDirectory <> Some (FsFile c)) ->
  http_get env pdfURL = inl r ->
  StatusCode r <> 200%Z ->
  downloadPDF env pdfURL outputDirectory w
  = (false,
     {| fs := fs w;
        trace := trace w ++
          [EvHttpGet pdfURL; EvLog (LogBadStatus pdfURL (Status r));
           EvBodyClose] |}).
Proof.
  intros Hno Hget Hstatus. rewrite downloadPDF_run. unfold fetch_outcome.
  cbv zeta. rewrite Hget.
  assert (negb (StatusCode r =? StatusOK)%Z = true) as ->.
  { apply negb_true_iff, Z.eqb_neq, Hstatus. }
  destruct (fs w !! destination pdfURL outputDirectory) as [[c|]|];
    [now destruct (Hno c)|reflexivity|reflexivity].
Qed.

Lemma downloadPDF_status_gate_witness :
  downloadPDF (serving_status 404 "404 Not Found")
    "https://example.com/docs/Manual.PDF" "PDFs/" empty_store
  = (false,
     {| fs := fs empty_store;
        trace :=
          [EvHttpGet "https://example.com/docs/Manual.PDF";
           EvLog (LogBadStatus "https://example.com/docs/Manual.PDF"
                    "404 Not Found");
           EvBodyClose] |}).
Proof.
  apply (downloadPDF_status_gate (serving_status 404 "404 Not Found")
           "https://example.com/docs/Manual.PDF" "PDFs/" empty_store
           (mkResponse 404 "404 Not Found" "application/pdf"
              "%PDF-1.7 body" None)).
  - intros c. vm_compute. discriminate.
  - reflexivity.
  - discriminate.
Defined.

(** X18.  A GET that fails ends the call with the error logged and the
    result [false]; there is no response, so nothing is read, closed or
    created. *)
Theorem downloadPDF_request_failure
  (env : Env) (pdfURL outputDirectory : string) (w : World)
  (requestError : string) :
  (forall c, fs w !! destination pdfURL outputDirectory <> Some (FsFile c)) ->
  http_get env pdfURL = inr requestError ->
  downloadPDF env pdfURL outputDirectory w
  = (false,
     {| fs := fs w;
        trace := trace w ++
          [EvHttpGet pdfURL;
           EvLog (LogRequestFailed pdfURL requestError)] |}).
Proof.
  intros Hno Hget. rewrite downloadPDF_run. unfold fetch_outcome.
  cbv zeta. rewrite Hget.
  destruct (fs w !! destination pdfURL outputDirectory) as [[c|]|];
    [now destruct (Hno c)|reflexivity|reflexivity].
Qed.

Lemma downloadPDF_request_failure_witness :
  downloadPDF unreachable
    "https://example.com/docs/Manual.PDF" "PDFs/" empty_store
  = (false,
     {| fs := fs empty_store;
        trace :=
          [EvHttpGet "https://example.com/docs/Manual.PDF";
           EvLog (LogRequestFailed "https://example.com/docs/Manual.PDF"
                    "dial tcp: connection refused")] |}).
Proof.
  apply (downloadPDF_request_failure unreachable
           "https://example.com/docs/Manual.PDF" "PDFs/" empty_store
           "dial tcp: connection refused").
  - intros c. vm_compute. discriminate.
  - reflexivity.
Defined.

(** The sanitized name of a link whose last path element is [.] is [.],
    and joining it to the output directory gives that directory. *)
Lemma destination_of_dot prefix outputDirectory :
  count_char "?" prefix = 0 ->
  destination (prefix +:+ "/.") outputDirectory
  = GoFilepath.Clean outputDirectory.
Proof.
  intros Hq. unfold destination.
  assert (urlToFilename (prefix +:+ "/.") = ".") as ->.
  { change "/." with ("/" +:+ "."). unfold urlToFilename. cbn zeta.
    rewrite (proj1 (basename_of_last_element prefix "." Hq eq_refl eq_refl
                      ltac:(discriminate))).
    vm_compute. reflexivity. }
  change (GoStrings.ToLower ".") with ".".
  unfold GoFilepath.Join.
  destruct outputDirectory as [|c d]; [reflexivity|]. cbn [is_empty negb].
  apply GoFilepathMore.Clean_dot_element. discriminate.
Qed.

(** X19.  A directory at the destination does not count as an existing
    file: the request is made all the same, and the call ends with [false]
    and the file store as it was, since the file cannot be created.  A link
    whose last path element is [.] (and that has no [?] before it) has the
    output directory itself, cleaned, as its destination. *)
Theorem downloadPDF_directory_in_the_way
  (env : Env) (pdfURL outputDirectory : string) (w : World) :
  (fs w !! destination pdfURL outputDirectory = Some FsDir ->
   let run := downloadPDF env pdfURL outputDirectory w in
   fst run = false
   /\ fs (snd run) = fs w
   /\ In (EvHttpGet pdfURL) (new_events w run))
  /\ (forall prefix : string,
        count_char "?" prefix = 0 ->
        destination (prefix +:+ "/.") outputDirectory
        = GoFilepath.Clean outputDirectory).
Proof.
  split; [|intros prefix; apply destination_of_dot].
  intros Hdir. cbn zeta.
  fetch_leaves env pdfURL outputDirectory w; try discriminate Hdir;
    rewrite ?new_events_after; cbn [fst snd after fs];
    repeat split; now left.
Qed.

Lemma downloadPDF_directory_in_the_way_witness :
  destination "https://example.com/a.pdf/." "PDFs/" = "PDFs"
  /\ fst (downloadPDF (serving "application/pdf" "%PDF-1.7 body")
            "https://example.com/a.pdf/." "PDFs/" empty_store) = false
  /\ fs (snd (downloadPDF (serving "application/pdf" "%PDF-1.7 body")
                "https://example.com/a.pdf/." "PDFs/" empty_store))
     = fs empty_store
  /\ In (EvHttpGet "https://example.com/a.pdf/.")
       (new_events empty_store
          (downloadPDF (serving "application/pdf" "%PDF-1.7 body")
             "https://example.com/a.pdf/." "PDFs/" empty_store)).
Proof.
  destruct (downloadPDF_directory_in_the_way
              (serving "application/pdf" "%PDF-1.7 body")
              "https://example.com/a.pdf/." "PDFs/" empty_store)
    as [Hrun Hdest].
  split.
  - exact (Hdest "https://example.com/a.pdf" eq_refl).
  - apply Hrun. vm_compute. reflexivity.
Defined.

(** ** The download loop *)

Lemma downloadPDF_keeps_files env pdfURL outputDirectory w path content :
  fs w !! path = Some (FsFile content) ->
  fs (snd (downloadPDF env pdfURL outputDirectory w)) !! path
  = Some (FsFile content).
Proof.
  intros H.
  destruct (downloadPDF_store env pdfURL outputDirectory w)
    as [-> | (Hnone & c & ->)]; [exact H|].
  rewrite lookup_insert_ne; [exact H|].
  intros <-. rewrite H in Hnone. discriminate.
Qed.

Lemma downloadPDF_other_paths env pdfURL outputDirectory w path :
  path <> destination pdfURL outputDirectory ->
  fs (snd (downloadPDF env pdfURL outputDirectory w)) !! path = fs w !! path.
Proof.
  intros Hne.
  destruct (downloadPDF_store env pdfURL outputDirectory w)
    as [-> | (_ & c & ->)]; [reflexivity|].
  now rewrite lookup_insert_ne.
Qed.

Lemma download_links_cons env pdfUrl rest outputDirectory w :
  download_links env (pdfUrl :: rest) outputDirectory w
  = download_links env rest outputDirectory
      (snd (downloadPDF env pdfUrl outputDirectory w)).
Proof.
  cbn [download_links]. unfold bind.
  now destruct (downloadPDF env pdfUrl outputDirectory w).
Qed.

Lemma download_links_store env pdfUrls outputDirectory : forall w,
  (forall path content,
      fs w !! path = Some (FsFile content) ->
      fs (snd (download_links env pdfUrls outputDirectory w)) !! path
      = Some (FsFile content))
  /\ (forall path,
        ~ In path (map (fun u => destination u outputDirectory) pdfUrls) ->
        fs (snd (download_links env pdfUrls outputDirectory w)) !! path
        = fs w !! path).
Proof.
  induction pdfUrls as [|u rest IH]; intros w.
  - split; [intros path content H; exact H|reflexivity].
  - rewrite download_links_cons.
    destruct (IH (snd (downloadPDF env u outputDirectory w))) as [IHf IHp].
    split.
    + intros path content H. apply IHf.
      now apply downloadPDF_keeps_files.
    + intros path Hnot. cbn [map In] in Hnot.
      rewrite IHp by tauto.
      apply downloadPDF_other_paths. intros ->. tauto.
Qed.

Lemma download_links_all_skips env pdfUrls outputDirectory : forall w,
  (forall pdfUrl,
      In pdfUrl pdfUrls ->
      exists content,
        fs w !! destination pdfUrl outputDirectory = Some (FsFile content)) ->
  download_links env pdfUrls outputDirectory w
  = (tt,
     {| fs := fs w;
        trace := trace w ++
          map (fun u => EvLog (LogFileExists (destination u outputDirectory)))
              pdfUrls |}).
Proof.
  induction pdfUrls as [|u rest IH]; intros w Hall.
  - cbn. unfold ret. rewrite app_nil_r. now destruct w.
  - rewrite download_links_cons.
    destruct (Hall u (or_introl eq_refl)) as [content Hu].
    rewrite (downloadPDF_skip env u outputDirectory w content Hu).
    cbn [snd]. rewrite IH.
    + unfold after. cbn [fs trace map]. now rewrite <- app_assoc.
    + intros v Hv. unfold after. cbn [fs]. apply Hall. now right.
Qed.

(** X20.  The loop over the links of a page never changes a file that
    exists, and touches no path other than the destinations of its
    links. *)
Theorem download_links_preserves
  (env : Env) (pdfUrls : list string) (outputDirectory : string) (w : World) :
  let w' := snd (download_links env pdfUrls outputDirectory w) in
  (forall path content,
      fs w !! path = Some (FsFile content) ->
      fs w' !! path = Some (FsFile content))
  /\ (forall path,
        ~ In path (map (fun u => destination u outputDirectory) pdfUrls) ->
        fs w' !! path = fs w !! path).
Proof. cbn zeta. apply download_links_store. Qed.

Lemma download_links_preserves_witness :
  fs (snd (download_links (serving "application/pdf" "%PDF-1.7 new")
             ["/docs/Manual.PDF?v=2"; "/docs/guide.pdf"] "PDFs/"
             store_with_manual))
    !! "PDFs/manual.pdf"
  = Some (FsFile "old").
Proof.
  apply (proj1 (download_links_preserves
                  (serving "application/pdf" "%PDF-1.7 new")
                  ["/docs/Manual.PDF?v=2"; "/docs/guide.pdf"] "PDFs/"
                  store_with_manual)).
  vm_compute. reflexivity.
Defined.

(** X21.  Running the loop again over links whose files are all there does
    nothing: no request is made, the file store is untouched, and the only
    events are the skip messages, one per link, in the order of the
    links. *)
Theorem download_links_rerun
  (env : Env) (pdfUrls : list string) (outputDirectory : string) (w : World) :
  (forall pdfUrl,
      In pdfUrl pdfUrls ->
      exists content,
        fs w !! destination pdfUrl outputDirectory = Some (FsFile content)) ->
  download_links env pdfUrls outputDirectory w
  = (tt,
     {| fs := fs w;
        trace := trace w ++
          map (fun u => EvLog (LogFileExists (destination u outputDirectory)))
              pdfUrls |}).
Proof. apply download_links_all_skips. Qed.

Lemma download_links_rerun_witness :
  download_links unreachable
    ["/docs/Manual.PDF?v=2"; "https://example.com/manual.pdf"] "PDFs/"
    store_with_manual
  = (tt,
     {| fs := fs store_with_manual;
        trace := [EvLog (LogFileExists "PDFs/manual.pdf");
                  EvLog (LogFileExists "PDFs/manual.pdf")] |}).
Proof.
  apply (download_links_rerun unreachable
           ["/docs/Manual.PDF?v=2"; "https://example.com/manual.pdf"] "PDFs/"
           store_with_manual).
  intros u [<- | [<- | []]]; exists "old"; vm_compute; reflexivity.
Defined.

(** ** The existence tests *)

(** X22.  [fileExists] and [directoryExists] only look: neither changes
    the world; they are never both true of a path, and both are false
    exactly when [os.Stat] finds nothing there. *)
Theorem fileExists_directoryExists (path : string) (w : World) :
  snd (fileExists path w) = w
  /\ snd (directoryExists path w) = w
  /\ (fst (fileExists path w) && fst (directoryExists path w) = false)
  /\ (fst (fileExists path w) || fst (directoryExists path w) = false
      <-> fs w !! path = None).
Proof.
  unfold fileExists, directoryExists, os_Stat, bind, ret.
  destruct (fs w !! path) as [[c|]|]; cbn; repeat split; congruence.
Qed.

Lemma downloadPDF_stores env pdfURL outputDirectory w r :
  fs w !! destination pdfURL outputDirectory = None ->
  http_get env pdfURL = inl r ->
  StatusCode r = 200%Z ->
  acceptable_content_type (ContentType r) = true ->
  BodyErr r = None ->
  Body r <> "" ->
  create_refused env (destination pdfURL outputDirectory) = None ->
  write_fault env (destination pdfURL outputDirectory)
    (String.length (Body r)) = None ->
  fs (snd (downloadPDF env pdfURL outputDirectory w))
  = <[destination pdfURL outputDirectory := FsFile (Body r)]> (fs w).
Proof.
  intros Hdest Hget Hstatus Hct Herr Hbody Hrefuse Hfault.
  rewrite downloadPDF_run. unfold fetch_outcome. cbv zeta.
  rewrite Hdest, Hget, Hstatus, Hct, Herr, Hrefuse, Hfault.
  destruct (Body r) as [|c b]; [congruence|]. reflexivity.
Qed.

(** X23.  When the links have pairwise different destinations at which
    nothing is yet, and every link is answered with status 200, an accepted
    content type and a non-empty body read to its end, on a system that
    refuses no creation and completes every write, then after the loop every
    destination holds the body served for its link; and a second run of the
    loop, whatever the network then answers, is all skips. *)
Theorem download_links_fetches_all
  (env env' : Env) (pdfUrls : list string) (outputDirectory : string)
  (w : World) :
  List.NoDup (map (fun u => destination u outputDirectory) pdfUrls) ->
  (forall u, In u pdfUrls ->
     fs w !! destination u outputDirectory = None
     /\ create_refused env (destination u outputDirectory) = None
     /\ exists r,
         http_get env u = inl r
         /\ StatusCode r = 200%Z
         /\ acceptable_content_type (ContentType r) = true
         /\ BodyErr r = None
         /\ Body r <> ""
         /\ write_fault env (destination u outputDirectory)
              (String.length (Body r)) = None) ->
  let w' := snd (download_links env pdfUrls outputDirectory w) in
  (forall u, In u pdfUrls ->
     exists r,
       http_get env u = inl r
       /\ fs w' !! destination u outputDirectory = Some (FsFile (Body r)))
  /\ download_links env' pdfUrls outputDirectory w'
     = (tt,
        {| fs := fs w';
           trace := trace w' ++
             map (fun u =>
                    EvLog (LogFileExists (destination u outputDirectory)))
                 pdfUrls |}).
Proof.
  cbn zeta. intros Hnd Hall.
  assert (forall u, In u pdfUrls ->
            exists r,
              http_get env u = inl r
              /\ fs (snd (download_links env pdfUrls outputDirectory w))
                   !! destination u outputDirectory
                 = Some (FsFile (Body r))) as Hdone.
  { revert w Hnd Hall. induction pdfUrls as [|v rest IH]; intros w Hnd Hall u Hu.
    - destruct Hu.
    - rewrite download_links_cons. cbn [map] in Hnd.
      apply List.NoDup_cons_iff in Hnd as [Hv Hnd].
      destruct (Hall v (or_introl eq_refl))
        as (Hnone & Hrefuse & r & Hget & Hst & Hct & Herr & Hbody & Hfault).
      pose proof (downloadPDF_stores env v outputDirectory w r
                    Hnone Hget Hst Hct Herr Hbody Hrefuse Hfault) as Hfs.
      destruct Hu as [<- | Hu].
      + exists r. split; [exact Hget|].
        apply (proj1 (download_links_store env rest outputDirectory _)).
        rewrite Hfs. apply lookup_insert_eq.
      + apply IH; [exact Hnd| |exact Hu].
        intros x Hx.
        destruct (Hall x (or_intror Hx)) as (Hxnone & Hrest).
        split; [|exact Hrest].
        rewrite Hfs, lookup_insert_ne; [exact Hxnone|].
        intros Heq. apply Hv. rewrite Heq.
        now apply (in_map (fun u => destination u outputDirectory)). }
  split; [exact Hdone|].
  apply download_links_all_skips.
  intros u Hu. destruct (Hdone u Hu) as (r & _ & Hr). eauto.
Qed.

Lemma download_links_fetches_all_witness :
  (forall u, In u ["/docs/One.PDF"; "/docs/two.pdf?v=3"] ->
     exists r,
       http_get (serving "application/pdf" "%PDF-1.7 body") u = inl r
       /\ fs (snd (download_links (serving "application/pdf" "%PDF-1.7 body")
                     ["/docs/One.PDF"; "/docs/two.pdf?v=3"] "PDFs/"
                     empty_store))
            !! destination u "PDFs/"
          = Some (FsFile (Body r)))
  /\ download_links unreachable ["/docs/One.PDF"; "/docs/two.pdf?v=3"] "PDFs/"
       (snd (download_links (serving "application/pdf" "%PDF-1.7 body")
               ["/docs/One.PDF"; "/docs/two.pdf?v=3"] "PDFs/" empty_store))
     = (tt,
        {| fs := fs (snd (download_links
                            (serving "application/pdf" "%PDF-1.7 body")
                            ["/docs/One.PDF"; "/docs/two.pdf?v=3"] "PDFs/"
                            empty_store));
           trace := trace (snd (download_links
                                  (serving "application/pdf" "%PDF-1.7 body")
                                  ["/docs/One.PDF"; "/docs/two.pdf?v=3"]
                                  "PDFs/" empty_store))
                    ++ map (fun u => EvLog (LogFileExists
                                              (destination u "PDFs/")))
                         ["/docs/One.PDF"; "/docs/two.pdf?v=3"] |}).
Proof.
  apply (download_links_fetches_all
           (serving "application/pdf" "%PDF-1.7 body") unreachable
           ["/docs/One.PDF"; "/docs/two.pdf?v=3"] "PDFs/" empty_store).
  - vm_compute. repeat constructor; cbn; intuition discriminate.
  - intros u [<- | [<- | []]];
      (split; [vm_compute; reflexivity|]);
      (split; [reflexivity|]);
      exists (mkResponse 200 "200 OK" "application/pdf" "%PDF-1.7 body" None);
      repeat split; discriminate.
Defined.
